(** * Membership and visibility engine of the fanclub site

    Shallow embedding of the request handlers of [server.js] (the SQLite
    server and the Supabase server that follows it in the same file) and of
    the SQL helper functions of [supabase-schema.sql], with the properties
    the specification states about them.

    Tables with a primary key that the handlers address by key are finite
    maps; tables that are scanned, filtered and ordered are lists of rows in
    insertion order. Every handler takes the database and returns the HTTP
    response together with the database it leaves behind. *)

From stdpp Require Import base option numbers list strings gmap sorting.

Local Open Scope Z_scope.

(** ** JavaScript values received in a JSON body *)

(** [JObj text] stands for an array or object, [text] being its string
    conversion ([String(v)]: "members" for the array holding that one
    string, "[object Object]" for a plain object). The handlers only test
    such a value for truthiness; the text is what the sqlite3 driver binds
    in its place. Numbers are integers here. *)
Inductive jsval :=
  | JUndefined
  | JNull
  | JBool (b : bool)
  | JNum (n : Z)
  | JStr (s : string)
  | JObj (text : string).

#[global] Instance jsval_eq_dec : EqDecision jsval.
Proof. solve_decision. Defined.

(** ToBoolean. *)
Definition truthy (v : jsval) : bool :=
  match v with
  | JUndefined | JNull => false
  | JBool b => b
  | JNum n => negb (n =? 0)
  | JStr s => negb (String.eqb s EmptyString)
  | JObj _ => true
  end.

(** [v || d]. *)
Definition js_or (v d : jsval) : jsval := if truthy v then v else d.

(** ** JavaScript [Date], in local calendar fields *)

Module JsDate.

(** [month] is zero-based as [getMonth] returns it, [day] is [getDate],
    [time_in_day] the milliseconds since local midnight. *)
Record date := Date {
  year : Z;
  month : Z;
  day : Z;
  time_in_day : Z
}.

#[global] Instance date_eq_dec : EqDecision date.
Proof. solve_decision. Defined.

Definition is_leap (y : Z) : bool :=
  (y mod 4 =? 0) && (negb (y mod 100 =? 0) || (y mod 400 =? 0)).

Definition days_in_month (y m : Z) : Z :=
  if m =? 1 then (if is_leap y then 29 else 28)
  else if (m =? 3) || (m =? 5) || (m =? 8) || (m =? 10) then 30
  else 31.

(** The calendar day after [(y, m, d)]. *)
Definition next_day (ymd : Z * Z * Z) : Z * Z * Z :=
  let '(y, m, d) := ymd in
  if d <? days_in_month y m then (y, m, d + 1)
  else if m <? 11 then (y, m + 1, 1)
  else (y + 1, 0, 1).

(** The month after [(y, m)], as [next_day] enters it. *)
Definition following (y m : Z) : Z * Z :=
  if m <? 11 then (y, m + 1) else (y + 1, 0).

Fixpoint add_days (n : nat) (ymd : Z * Z * Z) : Z * Z * Z :=
  match n with
  | O => ymd
  | S k => add_days k (next_day ymd)
  end.

(** ECMAScript MakeDay(y, m, dt): the month is first brought into 0..11
    by carrying into the year, then the result is the day that lies
    [dt - 1] days after the first of that month, so a [dt] beyond the
    month's length runs on into the following month. The handlers only
    pass the [getDate] of an existing date, hence [1 <= dt]. *)
Definition MakeDay (y m dt : Z) : Z * Z * Z :=
  add_days (Z.to_nat (dt - 1)) (y + m `div` 12, m `mod` 12, 1).

(** [d.setMonth(m)]: the day of the month and the time within the day
    are kept as arguments of MakeDay and MakeDate. The fields are those of
    local time, and the model is that of a server whose zone has a fixed
    offset from UTC (the usual deployment, in UTC itself): where the
    offset changes between the two dates, the conversion back from local
    time can move the time within the day, which is left out here. The
    calendar day, which the statements on the payment date are about, is
    the same in both cases. *)
Definition setMonth (d : date) (m : Z) : date :=
  let '(y', m', d') := MakeDay (year d) m (day d) in
  Date y' m' d' (time_in_day d).

Definition getMonth (d : date) : Z := month d.

(** A date as [new Date()] yields it. *)
Definition valid (d : date) : Prop :=
  0 <= month d <= 11 /\ 1 <= day d <= days_in_month (year d) (month d).

End JsDate.

Export JsDate.

(** ** The tables *)

(** The columns a handler fills from the request body hold the value as it
    was sent. The conversion a column applies to a value of another type
    (a numeric string in an INTEGER column, a number in a text column, an
    absent field stored as NULL) is not modelled: a row stands for what
    was bound. *)

Record user_row := UserRow {
  u_nickname : string;
  u_avatar_url : jsval
}.

Record fanclub_row := FanclubRow {
  f_name : jsval;
  f_description : jsval;
  f_monthly_fee : jsval;
  f_purpose : jsval;
  f_cover_image_url : jsval;
  f_owner_id : Z;
  f_member_count : Z
}.

Record membership_row := MembershipRow {
  m_user_id : Z;
  m_fanclub_id : Z;
  m_is_owner : bool;
  m_next_payment_date : option date
}.

Record post_row := PostRow {
  p_id : Z;
  p_fanclub_id : Z;
  p_author_id : Z;
  p_title : jsval;
  p_content : jsval;
  p_excerpt : jsval;
  p_featured_image_url : jsval;
  p_visibility : string;
  p_published_at : Z
}.

#[global] Instance user_row_eq_dec : EqDecision user_row.
Proof. solve_decision. Defined.
#[global] Instance fanclub_row_eq_dec : EqDecision fanclub_row.
Proof. solve_decision. Defined.
#[global] Instance membership_row_eq_dec : EqDecision membership_row.
Proof. solve_decision. Defined.
#[global] Instance post_row_eq_dec : EqDecision post_row.
Proof. solve_decision. Defined.

(** [fanclubs_seq] and [posts_seq] are the last identifiers handed out for
    the two tables whose new identifier a handler reports. Identifiers,
    [joined_at], [created_at] and [updated_at] of the other rows, the
    like and comment counters and the credential columns are read by no
    handler modelled here and are left out. *)
Record db := Db {
  users : gmap Z user_row;
  fanclubs : gmap Z fanclub_row;
  fanclubs_seq : Z;
  memberships : list membership_row;
  posts : list post_row;
  posts_seq : Z
}.

Definition empty_db : db := Db ∅ ∅ 0 [] [] 0.

(** ** Requests and responses *)

(** A row of the post listing: the post with the author's columns the
    query joins to it. *)
Record post_view := PostView {
  pv_post : post_row;
  pv_author_name : string;
  pv_author_avatar : jsval
}.

(** The responses the handlers send, named by status and message. *)
Inductive response :=
  | R201_fanclub_created (id : Z)
  | R200_joined
  | R200_left
  | R200_posts (ps : list post_view)
  | R201_post_created (id : Z)
  | R400_missing_fields
  | R400_already_member
  | R400_leave_failed
  | R400_title_content_required
  | R403_no_post_permission
  | R500_database_error
  | R500_fanclub_create_error
  | R500_membership_create_error
  | R500_post_create_error
  | R500_server_error.

Definition status (r : response) : Z :=
  match r with
  | R201_fanclub_created _ | R201_post_created _ => 201
  | R200_joined | R200_left | R200_posts _ => 200
  | R400_missing_fields | R400_already_member | R400_leave_failed
  | R400_title_content_required => 400
  | R403_no_post_permission => 403
  | _ => 500
  end.

Definition succeeded (r : response) : bool := status r <? 300.

(** Which of the storage statements a handler issues report an error to
    their callback: [fail1] the first statement the handler issues,
    [fail2] the second, [fail3] the third. *)
Record faults := Faults { fail1 : bool; fail2 : bool; fail3 : bool }.

Definition no_faults : faults := Faults false false false.

(** Body of POST /api/fanclubs. *)
Record fanclub_body := FanclubBody {
  b_name : jsval;
  b_description : jsval;
  b_monthly_fee : jsval;
  b_purpose : jsval;
  b_cover_image_url : jsval
}.

(** Body of POST /api/fanclubs/:id/posts. *)
Record post_body := PostBody {
  b_title : jsval;
  b_content : jsval;
  b_excerpt : jsval;
  b_featured_image_url : jsval;
  b_visibility : jsval
}.

(** GET /api/fanclubs/:id/posts as it reaches the handler. The route has no
    [authenticateToken] in front of it: [req_user] is the identity the
    bearer token of the request would verify to, [None] without a valid
    token. [req_query_user_id] is the [user_id] query parameter: [None]
    when it is missing or empty (falsy), [Some u] when it is a non-empty
    string, which the database compares with the [user_id] column as [u]. *)
Record posts_request := PostsRequest {
  req_user : option Z;
  req_params_id : Z;
  req_query_user_id : option Z
}.

(** Field updates of the database record. *)
Definition set_fanclubs (d : db) (fs : gmap Z fanclub_row) (seq : Z) : db :=
  Db (users d) fs seq (memberships d) (posts d) (posts_seq d).

Definition set_memberships (d : db) (ms : list membership_row) : db :=
  Db (users d) (fanclubs d) (fanclubs_seq d) ms (posts d) (posts_seq d).

Definition set_posts (d : db) (ps : list post_row) (seq : Z) : db :=
  Db (users d) (fanclubs d) (fanclubs_seq d) (memberships d) ps seq.

Definition set_member_count (n : Z) (r : fanclub_row) : fanclub_row :=
  FanclubRow (f_name r) (f_description r) (f_monthly_fee r) (f_purpose r)
    (f_cover_image_url r) (f_owner_id r) n.

(** ** Statements both servers issue *)

(** [WHERE user_id = u AND fanclub_id = f]. *)
Definition same_pair (u f : Z) (m : membership_row) : bool :=
  bool_decide (m_user_id m = u) && bool_decide (m_fanclub_id m = f).

(** The row a lookup of the pair returns, if any. *)
Definition select_membership (u f : Z) (d : db) : option membership_row :=
  find (same_pair u f) (memberships d).

(** The same lookup restricted to [is_owner = TRUE]. *)
Definition select_owner_membership (u f : Z) (d : db) : option membership_row :=
  find (fun m => same_pair u f m && m_is_owner m) (memberships d).

(** [DELETE FROM memberships WHERE user_id = u AND fanclub_id = f AND
    is_owner = FALSE]: the database left and the number of rows deleted. *)
Definition leaving (u f : Z) (m : membership_row) : bool :=
  same_pair u f m && negb (m_is_owner m).

Definition delete_membership (u f : Z) (d : db) : db * nat :=
  (set_memberships d (filter (fun m => leaving u f m = false) (memberships d)),
   length (filter (fun m => leaving u f m = true) (memberships d))).

(** [UPDATE fanclubs SET member_count = g(member_count) WHERE id = f]. *)
Definition update_member_count (f : Z) (g : Z -> Z) (d : db) : db :=
  set_fanclubs d
    (alter (fun r => set_member_count (g (f_member_count r)) r) f (fanclubs d))
    (fanclubs_seq d).

(** [CHECK(visibility IN ('public', 'members'))] on the value that reaches
    the column. Only a text can be one of the two words: a number or a
    boolean is compared as the text of a number or of a truth value, and
    an array or object reaches PostgreSQL as its JSON text, which starts
    with a bracket or a brace. *)
Definition check_visibility (v : jsval) : option string :=
  match v with
  | JStr s => if bool_decide (s = "public") || bool_decide (s = "members")
              then Some s else None
  | _ => None
  end.

(** Listing order: [ORDER BY published_at DESC], on rows that carry a post. *)
Definition newest_first {A : Type} (post_of : A -> post_row) (a b : A) : Prop :=
  p_published_at (post_of b) <= p_published_at (post_of a).

#[global] Instance newest_first_dec {A : Type} (post_of : A -> post_row) :
  RelDecision (newest_first post_of).
Proof. intros a b. unfold newest_first. apply _. Defined.

Definition order_by_published_at_desc {A : Type} (post_of : A -> post_row)
    (l : list A) : list A :=
  merge_sort (newest_first post_of) l.

(** The post with its author's columns; [None] when the author row is
    missing. *)
Definition with_author (d : db) (p : post_row) : option post_view :=
  match users d !! p_author_id p with
  | Some u => Some (PostView p (u_nickname u) (u_avatar_url u))
  | None => None
  end.

(** The next month's payment date both join handlers compute:
    [nextPaymentDate.setMonth(nextPaymentDate.getMonth() + 1)]. *)
Definition nextPaymentDate (now : date) : date :=
  setMonth now (getMonth now + 1).

(** ** The SQLite server *)

Module Sqlite.

(** [INSERT INTO memberships]: the statement fails on a second row for the
    same (user_id, fanclub_id), the table's UNIQUE constraint. SQLite
    enforces the FOREIGN KEY clauses of a table only on a connection that
    has run [PRAGMA foreign_keys = ON], which the server never does, so the
    fanclub the row names need not exist. *)
Definition insert_membership (row : membership_row) (d : db) : option db :=
  if existsb (same_pair (m_user_id row) (m_fanclub_id row)) (memberships d)
  then None
  else Some (set_memberships d (memberships d ++ [row])).

(** [INSERT INTO fanclubs]: the AUTOINCREMENT key is one more than the last
    one handed out, [member_count] takes its column default 1. *)
Definition insert_fanclub (owner : Z) (b : fanclub_body) (d : db) : Z * db :=
  let fanclubId := fanclubs_seq d + 1 in
  (fanclubId,
   set_fanclubs d
     (<[fanclubId := FanclubRow (b_name b) (b_description b)
                       (js_or (b_monthly_fee b) (JNum 0)) (b_purpose b)
                       (b_cover_image_url b) owner 1]> (fanclubs d))
     fanclubId).

(** A parameter of [db.run] as the sqlite3 driver binds it: an array or
    object goes in as the text of its string conversion. *)
Definition bind_value (v : jsval) : jsval :=
  match v with
  | JObj text => JStr text
  | _ => v
  end.

(** [INSERT INTO posts], with [published_at] defaulting to the current
    time; fails when the visibility check constraint rejects the bound
    value. *)
Definition insert_post (author fanclubId : Z) (b : post_body) (v : jsval)
    (now : Z) (d : db) : option (Z * db) :=
  match check_visibility (bind_value v) with
  | Some vis =>
      let postId := posts_seq d + 1 in
      Some (postId,
            set_posts d
              (posts d ++ [PostRow postId fanclubId author (b_title b)
                             (b_content b) (b_excerpt b)
                             (b_featured_image_url b) vis now])
              postId)
  | None => None
  end.

(** POST /api/fanclubs. *)
Definition post_fanclubs (flt : faults) (user : Z) (b : fanclub_body)
    (d : db) : response * db :=
  if negb (truthy (b_name b)) || negb (truthy (b_purpose b))
  then (R400_missing_fields, d)
  else if fail1 flt then (R500_fanclub_create_error, d)
  else
    let '(fanclubId, d1) := insert_fanclub user b d in
    let d2 :=
      if fail2 flt then d1
      else match insert_membership (MembershipRow user fanclubId true None) d1 with
           | Some d2 => d2
           | None => d1
           end in
    (R201_fanclub_created fanclubId, d2).

(** POST /api/fanclubs/:id/join, first callback: the lookup of an existing
    membership. [None] means the handler goes on to the insert. *)
Definition join_check (flt : faults) (userId fanclubId : Z) (d : db)
    : option response :=
  if fail1 flt then Some R500_database_error
  else match select_membership userId fanclubId d with
       | Some _ => Some R400_already_member
       | None => None
       end.

(** Second callback: the insert, then the counter update whose error is
    only logged, then the response. *)
Definition join_insert (flt : faults) (userId fanclubId : Z) (now : date)
    (d : db) : response * db :=
  if fail2 flt then (R500_membership_create_error, d)
  else match insert_membership
               (MembershipRow userId fanclubId false (Some (nextPaymentDate now))) d with
       | None => (R500_membership_create_error, d)
       | Some d1 =>
           (R200_joined,
            if fail3 flt then d1
            else update_member_count fanclubId (fun n => n + 1) d1)
       end.

Definition post_join (flt : faults) (userId fanclubId : Z) (now : date)
    (d : db) : response * db :=
  match join_check flt userId fanclubId d with
  | Some r => (r, d)
  | None => join_insert flt userId fanclubId now d
  end.

(** DELETE /api/fanclubs/:id/leave. *)
Definition delete_leave (flt : faults) (userId fanclubId : Z) (d : db)
    : response * db :=
  if fail1 flt then (R500_database_error, d)
  else
    let '(d1, changes) := delete_membership userId fanclubId d in
    if bool_decide (changes = 0%nat) then (R400_leave_failed, d1)
    else (R200_left,
          if fail2 flt then d1
          else update_member_count fanclubId (fun n => n - 1) d1).

(** The WHERE clause of the listing for one post. *)
Definition where_clause (fanclubId : Z) (userId : option Z) (d : db)
    (p : post_row) : bool :=
  bool_decide (p_fanclub_id p = fanclubId) &&
  match userId with
  | Some u =>
      bool_decide (p_visibility p = "public")
      || (bool_decide (p_visibility p = "members")
          && existsb (same_pair u fanclubId) (memberships d))
  | None => bool_decide (p_visibility p = "public")
  end.

(** GET /api/fanclubs/:id/posts: posts joined with their authors, filtered
    and ordered by the database. *)
Definition select_posts (fanclubId : Z) (userId : option Z) (d : db)
    : list post_view :=
  order_by_published_at_desc pv_post
    (omap (with_author d)
       (filter (fun p => where_clause fanclubId userId d p = true) (posts d))).

Definition get_posts (flt : faults) (req : posts_request) (d : db) : response :=
  let fanclubId := req_params_id req in
  let userId := req_query_user_id req in
  if fail1 flt then R500_database_error
  else R200_posts (select_posts fanclubId userId d).

(** POST /api/fanclubs/:id/posts. *)
Definition post_posts (flt : faults) (user fanclubId : Z) (b : post_body)
    (now : Z) (d : db) : response * db :=
  if negb (truthy (b_title b)) || negb (truthy (b_content b))
  then (R400_title_content_required, d)
  else if fail1 flt then (R500_database_error, d)
  else match select_owner_membership user fanclubId d with
       | None => (R403_no_post_permission, d)
       | Some _ =>
           if fail2 flt then (R500_post_create_error, d)
           else match insert_post user fanclubId b
                        (js_or (b_visibility b) (JStr "public")) now d with
                | Some (postId, d1) => (R201_post_created postId, d1)
                | None => (R500_post_create_error, d)
                end
       end.

End Sqlite.

(** ** The Supabase server

    The tables are those of [supabase-schema.sql], reached through the
    PostgREST client with row level security switched off as the
    accompanying script does. Postgres enforces the foreign keys. A call of
    the client does not throw: it returns [data] and [error], and [data] is
    null whenever there is an error. *)

Module Supabase.

(** [.single()]: the row when the query yields exactly one. *)
Definition single {A : Type} (rows : list A) : option A :=
  match rows with
  | [x] => Some x
  | _ => None
  end.

Definition select_membership_single (failed : bool) (u f : Z) (d : db)
    : option membership_row :=
  if failed then None
  else single (filter (fun m => same_pair u f m = true) (memberships d)).

Definition select_owner_single (failed : bool) (u f : Z) (d : db)
    : option membership_row :=
  if failed then None
  else single (filter (fun m => (same_pair u f m && m_is_owner m) = true)
                 (memberships d)).

(** Insert into [memberships]: UNIQUE(user_id, fanclub_id) and the two
    foreign keys. *)
Definition insert_membership (row : membership_row) (d : db) : option db :=
  if existsb (same_pair (m_user_id row) (m_fanclub_id row)) (memberships d)
  then None
  else match users d !! m_user_id row, fanclubs d !! m_fanclub_id row with
       | Some _, Some _ => Some (set_memberships d (memberships d ++ [row]))
       | _, _ => None
       end.

(** Insert into [fanclubs]: [fresh] is the identifier [gen_random_uuid()]
    draws; the owner must be a user; [member_count] defaults to 1. *)
Definition insert_fanclub (fresh owner : Z) (b : fanclub_body) (d : db)
    : option db :=
  match fanclubs d !! fresh, users d !! owner with
  | None, Some _ =>
      Some (set_fanclubs d
              (<[fresh := FanclubRow (b_name b) (b_description b)
                            (js_or (b_monthly_fee b) (JNum 0)) (b_purpose b)
                            (b_cover_image_url b) owner 1]> (fanclubs d))
              (fanclubs_seq d))
  | _, _ => None
  end.

(** Insert into [posts]: the visibility check and the two foreign keys. *)
Definition insert_post (fresh author fanclubId : Z) (b : post_body)
    (v : jsval) (now : Z) (d : db) : option db :=
  match check_visibility v, users d !! author, fanclubs d !! fanclubId with
  | Some vis, Some _, Some _ =>
      Some (set_posts d
              (posts d ++ [PostRow fresh fanclubId author (b_title b)
                             (b_content b) (b_excerpt b)
                             (b_featured_image_url b) vis now])
              (posts_seq d))
  | _, _, _ => None
  end.

(** The SQL functions of the schema. *)
Definition increment_member_count (fanclub_id : Z) (d : db) : db :=
  update_member_count fanclub_id (fun n => n + 1) d.

Definition decrement_member_count (fanclub_id : Z) (d : db) : db :=
  update_member_count fanclub_id (fun n => Z.max (n - 1) 0) d.

(** POST /api/fanclubs. The result of the membership insert is not looked
    at. *)
Definition post_fanclubs (flt : faults) (fresh user : Z) (b : fanclub_body)
    (d : db) : response * db :=
  if negb (truthy (b_name b)) || negb (truthy (b_purpose b))
  then (R400_missing_fields, d)
  else if fail1 flt then (R500_fanclub_create_error, d)
  else match insert_fanclub fresh user b d with
       | None => (R500_fanclub_create_error, d)
       | Some d1 =>
           let d2 :=
             if fail2 flt then d1
             else match insert_membership (MembershipRow user fresh true None) d1 with
                  | Some d2 => d2
                  | None => d1
                  end in
           (R201_fanclub_created fresh, d2)
       end.

(** POST /api/fanclubs/:id/join. *)
Definition post_join (flt : faults) (userId fanclubId : Z) (now : date)
    (d : db) : response * db :=
  match select_membership_single (fail1 flt) userId fanclubId d with
  | Some _ => (R400_already_member, d)
  | None =>
      if fail2 flt then (R500_membership_create_error, d)
      else match insert_membership
                   (MembershipRow userId fanclubId false
                      (Some (nextPaymentDate now))) d with
           | None => (R500_membership_create_error, d)
           | Some d1 =>
               (R200_joined,
                if fail3 flt then d1 else increment_member_count fanclubId d1)
           end
  end.

(** DELETE /api/fanclubs/:id/leave. The number of deleted rows is not
    looked at. *)
Definition delete_leave (flt : faults) (userId fanclubId : Z) (d : db)
    : response * db :=
  if fail1 flt then (R500_database_error, d)
  else
    let d1 := fst (delete_membership userId fanclubId d) in
    (R200_left,
     if fail2 flt then d1 else decrement_member_count fanclubId d1).

(** The posts query: the embedded author is null when the row is missing,
    and reading its nickname then throws into the handler's catch. *)
Definition select_posts (fanclubId : Z) (visibilities : list string) (d : db)
    : list (post_row * option user_row) :=
  order_by_published_at_desc fst
    (map (fun p => (p, users d !! p_author_id p))
       (filter (fun p => p_fanclub_id p = fanclubId
                         /\ p_visibility p ∈ visibilities) (posts d))).

Fixpoint map_authors (rows : list (post_row * option user_row))
    : option (list post_view) :=
  match rows with
  | [] => Some []
  | (p, Some u) :: rest =>
      match map_authors rest with
      | Some vs => Some (PostView p (u_nickname u) (u_avatar_url u) :: vs)
      | None => None
      end
  | (_, None) :: _ => None
  end.

(** GET /api/fanclubs/:id/posts. [fail1] is the membership lookup, [fail2]
    the posts query. *)
Definition get_posts (flt : faults) (req : posts_request) (d : db) : response :=
  let fanclubId := req_params_id req in
  let userId := req_query_user_id req in
  let visibilities :=
    match userId with
    | Some u =>
        match select_membership_single (fail1 flt) u fanclubId d with
        | Some _ => ["public"; "members"]
        | None => ["public"]
        end
    | None => ["public"]
    end in
  if fail2 flt then R500_database_error
  else match map_authors (select_posts fanclubId visibilities d) with
       | Some posts => R200_posts posts
       | None => R500_server_error
       end.

(** POST /api/fanclubs/:id/posts. *)
Definition post_posts (flt : faults) (fresh user fanclubId : Z) (b : post_body)
    (now : Z) (d : db) : response * db :=
  if negb (truthy (b_title b)) || negb (truthy (b_content b))
  then (R400_title_content_required, d)
  else match select_owner_single (fail1 flt) user fanclubId d with
       | None => (R403_no_post_permission, d)
       | Some _ =>
           if fail2 flt then (R500_post_create_error, d)
           else match insert_post fresh user fanclubId b
                        (js_or (b_visibility b) (JStr "public")) now d with
                | Some d1 => (R201_post_created fresh, d1)
                | None => (R500_post_create_error, d)
                end
       end.

End Supabase.

(** ** The specification's decision functions and rules

    Written after the words of the specification, to be compared with what
    the handlers compute. *)

Module Spec.

Definition isMember (u f : Z) (d : db) : Prop :=
  Exists (fun m => m_user_id m = u /\ m_fanclub_id m = f) (memberships d).

Definition isOwner (u f : Z) (d : db) : Prop :=
  Exists (fun m => m_user_id m = u /\ m_fanclub_id m = f /\ m_is_owner m = true)
    (memberships d).

(** [canPublish]: only the owner may publish. *)
Definition canPublish (u f : Z) (d : db) : Prop := isOwner u f d.

(** [canView], for the anonymous viewer [None] or a concrete identity. *)
Definition canView (viewer : option Z) (p : post_row) (d : db) : Prop :=
  p_visibility p = "public"
  \/ (p_visibility p = "members"
      /\ match viewer with
         | Some u => isMember u (p_fanclub_id p) d
         | None => False
         end).

#[global] Instance isMember_dec u f d : Decision (isMember u f d).
Proof. unfold isMember. apply _. Defined.

#[global] Instance canView_dec viewer p d : Decision (canView viewer p d).
Proof. unfold canView. destruct viewer; apply _. Defined.

(** [listVisiblePosts] before ordering: the fanclub's posts the gate lets
    through. *)
Definition visible_posts (f : Z) (viewer : option Z) (d : db) : list post_row :=
  filter (fun p => p_fanclub_id p = f /\ canView viewer p d) (posts d).

(** The stored counter agrees with the membership rows of fanclub [f]. *)
Definition count_matches (f : Z) (d : db) : Prop :=
  exists row, fanclubs d !! f = Some row
    /\ f_member_count row
       = Z.of_nat (length (filter (fun m => m_fanclub_id m = f) (memberships d))).

(** One calendar month later, a day the target month lacks clamped to the
    month's last day. *)
Definition one_month_later_clamped (now : date) : date :=
  let y := year now + (month now + 1) `div` 12 in
  let m := (month now + 1) `mod` 12 in
  Date y m (Z.min (day now) (days_in_month y m)) (time_in_day now).

End Spec.

(** ** Schema constraints the handlers rely on *)

(** UNIQUE(user_id, fanclub_id) on memberships. *)
Definition unique_memberships (d : db) : Prop :=
  NoDup (map (fun m => (m_user_id m, m_fanclub_id m)) (memberships d)).

(** posts.author_id REFERENCES users(id). *)
Definition authors_exist (d : db) : Prop :=
  Forall (fun p => is_Some (users d !! p_author_id p)) (posts d).

(** ** Sequences of join and leave requests against the SQLite server *)

Inductive operation :=
  | Join (flt : faults) (userId fanclubId : Z) (now : date)
  | Leave (flt : faults) (userId fanclubId : Z).

Definition run (o : operation) (d : db) : response * db :=
  match o with
  | Join flt u f now => Sqlite.post_join flt u f now d
  | Leave flt u f => Sqlite.delete_leave flt u f d
  end.

Definition run_all (os : list operation) (d : db) : db :=
  foldl (fun acc o => snd (run o acc)) d os.

(** The counter update of the operation, its last statement, does not
    fail. *)
Definition counter_update_succeeds (o : operation) : Prop :=
  match o with
  | Join flt _ _ _ => fail3 flt = false
  | Leave flt _ _ => fail2 flt = false
  end.

(** ** Two join requests of one user, interleaved

    Each request runs its two callbacks in order; callbacks of different
    requests interleave. [true] in the schedule lets the first request
    take its next step, [false] the second. *)

Inductive join_state :=
  | Arrived
  | Checked
  | Answered (r : response).

Definition join_step (userId fanclubId : Z) (now : date) (s : join_state)
    (d : db) : join_state * db :=
  match s with
  | Arrived =>
      match Sqlite.join_check no_faults userId fanclubId d with
      | Some r => (Answered r, d)
      | None => (Checked, d)
      end
  | Checked =>
      let '(r, d1) := Sqlite.join_insert no_faults userId fanclubId now d in
      (Answered r, d1)
  | Answered r => (Answered r, d)
  end.

Fixpoint interleave (userId fanclubId : Z) (now1 now2 : date)
    (schedule : list bool) (s1 s2 : join_state) (d : db)
    : join_state * join_state * db :=
  match schedule with
  | [] => (s1, s2, d)
  | true :: rest =>
      let '(s1', d') := join_step userId fanclubId now1 s1 d in
      interleave userId fanclubId now1 now2 rest s1' s2 d'
  | false :: rest =>
      let '(s2', d') := join_step userId fanclubId now2 s2 d in
      interleave userId fanclubId now1 now2 rest s1 s2' d'
  end.

(** Every request gets its two steps. *)
Definition fair (schedule : list bool) : Prop :=
  length (filter (fun b => b = true) schedule) = 2%nat
  /\ length (filter (fun b => b = false) schedule) = 2%nat.

(** ** Concrete databases and requests used below *)

Definition noon (y m dd : Z) : date := Date y m dd 43200000.

Definition jan31 : date := noon 2023 0 31.
Definition jan15 : date := noon 2023 0 15.

Definition alice : user_row := UserRow "alice" JNull.
Definition bob : user_row := UserRow "bob" JNull.
Definition carol : user_row := UserRow "carol" JNull.

Definition club_body : fanclub_body :=
  FanclubBody (JStr "club") (JStr "about") (JNum 500) (JStr "fans") JUndefined.

Definition three_users : db :=
  Db (<[1 := alice]> (<[2 := bob]> (<[3 := carol]> ∅))) ∅ 0 [] [] 0.

(** User 1 has created fanclub 1 on the SQLite server. *)
Definition club_db : db :=
  snd (Sqlite.post_fanclubs no_faults 1 club_body three_users).

(** Bob has joined fanclub 1. *)
Definition club_with_bob : db :=
  snd (Sqlite.post_join no_faults 2 1 jan15 club_db).

(** The same fanclub created on the Supabase server, with identifier 1. *)
Definition supabase_club_db : db :=
  snd (Supabase.post_fanclubs no_faults 1 1 club_body three_users).

(** Users 2 and 3 join fanclub 1 on the SQLite server before it exists,
    user 1 then creates the first fanclub, which gets identifier 1, and
    user 2 leaves it. *)
Definition early_joins_db : db :=
  let d1 := snd (Sqlite.post_join no_faults 2 1 jan15 three_users) in
  let d2 := snd (Sqlite.post_join no_faults 3 1 jan15 d1) in
  let d3 := snd (Sqlite.post_fanclubs no_faults 1 club_body d2) in
  snd (Sqlite.delete_leave no_faults 2 1 d3).

(** User 1 joins fanclub 1 before it exists and then creates it. *)
Definition owner_joined_early_db : db :=
  snd (Sqlite.post_join no_faults 1 1 jan15 three_users).

(** A post body with a title and a text and no visibility field. *)
Definition plain_post : post_body :=
  PostBody (JStr "hello") (JStr "first post") JUndefined JUndefined JUndefined.

(** The same with an empty visibility string. *)
Definition empty_visibility_post : post_body :=
  PostBody (JStr "hello") (JStr "first post") JUndefined JUndefined (JStr EmptyString).

(** Fanclub 1 with a public and a members-only post of its owner; bob is a
    member, carol is not. *)
Definition club_with_posts : db :=
  set_posts club_with_bob
    [PostRow 1 1 1 (JStr "open") (JStr "for all") JNull JNull "public" 1000;
     PostRow 2 1 1 (JStr "inner") (JStr "for fans") JNull JNull "members" 2000]
    2.

Definition anonymous_request : posts_request := PostsRequest None 1 None.

(** No token, and the owner's identifier in the query string. *)
Definition borrowed_id_request : posts_request := PostsRequest None 1 (Some 1).

(** Carol's token, and bob's identifier in the query string. *)
Definition carol_as_bob_request : posts_request :=
  PostsRequest (Some 3) 1 (Some 2).

Definition bob_request : posts_request := PostsRequest (Some 2) 1 (Some 2).

(** Bob's token, and no [user_id] in the query string. *)
Definition bob_token_only_request : posts_request :=
  PostsRequest (Some 2) 1 None.

(** The identifiers of the posts a listing answers with, in order. *)
Definition listed_ids (r : response) : list Z :=
  match r with
  | R200_posts ps => map (fun v => p_id (pv_post v)) ps
  | _ => []
  end.

(** ** All mutating routes of a server, and sequences of requests *)

(** A request to one of the four mutating routes of the SQLite server, with
    the user [authenticateToken] put into [req.user]. *)
Inductive sqlite_request :=
  | CreateFanclub (flt : faults) (user : Z) (b : fanclub_body)
  | JoinFanclub (flt : faults) (user fanclubId : Z) (now : date)
  | LeaveFanclub (flt : faults) (user fanclubId : Z)
  | CreatePost (flt : faults) (user fanclubId : Z) (b : post_body) (now : Z).

Definition sqlite_serve (r : sqlite_request) (d : db) : response * db :=
  match r with
  | CreateFanclub flt user b => Sqlite.post_fanclubs flt user b d
  | JoinFanclub flt user f now => Sqlite.post_join flt user f now d
  | LeaveFanclub flt user f => Sqlite.delete_leave flt user f d
  | CreatePost flt user f b now => Sqlite.post_posts flt user f b now d
  end.

Definition sqlite_serve_all (rs : list sqlite_request) (d : db) : db :=
  foldl (fun acc r => snd (sqlite_serve r acc)) d rs.

(** The same for the Supabase server; [fresh] is the identifier the
    database draws for a new fanclub or post. *)
Inductive supabase_request :=
  | SCreateFanclub (flt : faults) (fresh user : Z) (b : fanclub_body)
  | SJoinFanclub (flt : faults) (user fanclubId : Z) (now : date)
  | SLeaveFanclub (flt : faults) (user fanclubId : Z)
  | SCreatePost (flt : faults) (fresh user fanclubId : Z) (b : post_body)
      (now : Z).

Definition supabase_serve (r : supabase_request) (d : db) : response * db :=
  match r with
  | SCreateFanclub flt fresh user b => Supabase.post_fanclubs flt fresh user b d
  | SJoinFanclub flt user f now => Supabase.post_join flt user f now d
  | SLeaveFanclub flt user f => Supabase.delete_leave flt user f d
  | SCreatePost flt fresh user f b now =>
      Supabase.post_posts flt fresh user f b now d
  end.

Definition supabase_serve_all (rs : list supabase_request) (d : db) : db :=
  foldl (fun acc r => snd (supabase_serve r acc)) d rs.

(** ** Constraints of the schema on stored rows *)

(** CHECK(visibility IN ('public', 'members')) on posts. *)
Definition visibilities_checked (d : db) : Prop :=
  Forall (fun p => p_visibility p = "public" \/ p_visibility p = "members")
    (posts d).

(** INTEGER PRIMARY KEY AUTOINCREMENT on the SQLite tables: no identifier
    in a table is beyond the last one handed out, and post identifiers do
    not repeat. *)
Definition fanclub_ids_issued (d : db) : Prop :=
  forall k, is_Some (fanclubs d !! k) -> k <= fanclubs_seq d.

Definition post_ids_issued (d : db) : Prop :=
  Forall (fun p => p_id p <= posts_seq d) (posts d)
  /\ NoDup (map p_id (posts d)).

(** ** GET /api/fanclubs/:id *)

(** The fanclub with the owner's nickname joined to it. *)
Record fanclub_view := FanclubView {
  fv_id : Z;
  fv_row : fanclub_row;
  fv_owner_name : string
}.

Inductive fanclub_response :=
  | F200_fanclub (v : fanclub_view)
  | F404_not_found
  | F500_database_error
  | F500_server_error.

(** SQLite: the inner join drops a fanclub whose owner is not a user. *)
Definition sqlite_get_fanclub (flt : faults) (id : Z) (d : db)
    : fanclub_response :=
  if fail1 flt then F500_database_error
  else match fanclubs d !! id with
       | Some row =>
           match users d !! f_owner_id row with
           | Some u => F200_fanclub (FanclubView id row (u_nickname u))
           | None => F404_not_found
           end
       | None => F404_not_found
       end.

(** Supabase: an error of the query is answered like a missing row; the
    owner is embedded, and reading the nickname of a missing owner throws
    into the handler's catch. *)
Definition supabase_get_fanclub (flt : faults) (id : Z) (d : db)
    : fanclub_response :=
  if fail1 flt then F404_not_found
  else match fanclubs d !! id with
       | Some row =>
           match users d !! f_owner_id row with
           | Some u => F200_fanclub (FanclubView id row (u_nickname u))
           | None => F500_server_error
           end
       | None => F404_not_found
       end.

(** ** The [authenticateToken] middleware *)

(** [s.split(sep)] for a one-character separator. *)
Fixpoint split (sep : Ascii.ascii) (s : string) : list string :=
  match s with
  | EmptyString => [EmptyString]
  | String c rest =>
      if Ascii.eqb c sep then EmptyString :: split sep rest
      else match split sep rest with
           | field :: fields => String c field :: fields
           | [] => [String c EmptyString]
           end
  end.

Definition space : Ascii.ascii := Ascii.Space.

Inductive auth_result :=
  | Status401
  | Status403
  | Next (user : Z).

(** [authorization] is [req.headers['authorization']], [None] when the
    request has no such header. [verify] is [jwt.verify] with the server's
    secret at the time of the request: the [id] of the payload of a token
    it accepts. *)
Definition authenticateToken (verify : string -> option Z)
    (authorization : option string) : auth_result :=
  let token :=
    match authorization with
    | None => None
    | Some authHeader =>
        if String.eqb authHeader EmptyString then Some EmptyString
        else split space authHeader !! 1%nat
    end in
  match token with
  | None => Status401
  | Some t =>
      if String.eqb t EmptyString then Status401
      else match verify t with
           | None => Status403
           | Some user => Next user
           end
  end.

(** A route behind the middleware. *)
Inductive guarded_response :=
  | NoToken401
  | InvalidToken403
  | Served (r : response).

Definition guarded (verify : string -> option Z) (authorization : option string)
    (handler : Z -> db -> response * db) (d : db) : guarded_response * db :=
  match authenticateToken verify authorization with
  | Next user => let '(r, d') := handler user d in (Served r, d')
  | Status401 => (NoToken401, d)
  | Status403 => (InvalidToken403, d)
  end.

(** [response.ok] as the page's [fetch] sees it. *)
Definition ok (r : guarded_response) : bool :=
  match r with
  | Served r => succeeded r
  | _ => false
  end.

(** ** The page script *)

(** The fields of [FanClubApp] the membership actions read and write:
    [currentUser] by its [id]. *)
Record page := Page {
  currentUser : option Z;
  currentFanclub : option fanclub_view;
  token : option string
}.

(** The Authorization header [apiCall] sends. *)
Definition apiCall_authorization (p : page) : option string :=
  match token p with
  | Some t => if String.eqb t EmptyString then None
              else Some ("Bearer " ++ t)%string
  | None => None
  end.

Definition with_member_count (v : fanclub_view) (n : Z) : fanclub_view :=
  FanclubView (fv_id v) (set_member_count n (fv_row v)) (fv_owner_name v).

(** [viewFanclub(fanclubId)] against the SQLite server: the fanclub of the
    page is replaced when the server answers with one. *)
Definition viewFanclub (flt : faults) (fanclubId : Z) (p : page) (d : db)
    : page :=
  match sqlite_get_fanclub flt fanclubId d with
  | F200_fanclub v => Page (currentUser p) (Some v) (token p)
  | _ => p
  end.

(** [joinFanclub()] against the SQLite server: without a logged-in user
    nothing is sent; the counter on the page is incremented when the server
    answers success. *)
Definition joinFanclub (verify : string -> option Z) (flt : faults)
    (now : date) (p : page) (d : db) : page * db :=
  match currentUser p, currentFanclub p with
  | Some _, Some v =>
      let '(reply, d') :=
        guarded verify (apiCall_authorization p)
          (fun user => Sqlite.post_join flt user (fv_id v) now) d in
      if ok reply
      then (Page (currentUser p)
              (Some (with_member_count v (f_member_count (fv_row v) + 1)))
              (token p), d')
      else (p, d')
  | _, _ => (p, d)
  end.

(** [leaveFanclub()], once the user has confirmed. *)
Definition leaveFanclub (verify : string -> option Z) (flt : faults)
    (p : page) (d : db) : page * db :=
  match currentFanclub p with
  | Some v =>
      let '(reply, d') :=
        guarded verify (apiCall_authorization p)
          (fun user => Sqlite.delete_leave flt user (fv_id v)) d in
      if ok reply
      then (Page (currentUser p)
              (Some (with_member_count v (f_member_count (fv_row v) - 1)))
              (token p), d')
      else (p, d')
  | None => (p, d)
  end.

(** [loadFanclubPosts()]: the request the page sends for its fanclub. *)
Definition loadFanclubPosts_request (p : page) : option posts_request :=
  match currentFanclub p with
  | Some v => Some (PostsRequest None (fv_id v) (currentUser p))
  | None => None
  end.

(** Whether character [c] occurs in [s]. *)
Fixpoint occurs (c : Ascii.ascii) (s : string) : bool :=
  match s with
  | EmptyString => false
  | String c' rest => Ascii.eqb c' c || occurs c rest
  end.

(** Every stored counter is at least 0. *)
Definition counters_nonnegative (d : db) : Prop :=
  forall k row, fanclubs d !! k = Some row -> 0 <= f_member_count row.

(** The foreign keys of memberships and posts, which Postgres enforces. *)
Definition references_hold (d : db) : Prop :=
  Forall (fun m => is_Some (users d !! m_user_id m)
                   /\ is_Some (fanclubs d !! m_fanclub_id m)) (memberships d)
  /\ Forall (fun p => is_Some (users d !! p_author_id p)
                      /\ is_Some (fanclubs d !! p_fanclub_id p)) (posts d).

(** The requester of every request is a registered user, as a token is
    only issued at signup or login. *)
Definition requester (r : sqlite_request) : Z :=
  match r with
  | CreateFanclub _ user _ => user
  | JoinFanclub _ user _ _ => user
  | LeaveFanclub _ user _ => user
  | CreatePost _ user _ _ _ => user
  end.

(** A request that does not create a fanclub. *)
Definition creates_no_fanclub (r : sqlite_request) : Prop :=
  match r with
  | CreateFanclub _ _ _ => False
  | _ => True
  end.

(** A verifier that accepts the one token "tok", for user [u], and the
    page's copy of fanclub 1 with a given member count. *)
Definition accept_tok (u : Z) (t : string) : option Z :=
  if String.eqb t "tok" then Some u else None.

Definition shown_club (count : Z) : fanclub_view :=
  FanclubView 1
    (FanclubRow (JStr "club") (JStr "about") (JNum 500) (JStr "fans")
       JUndefined 1 count) "alice".

(** * Properties *)

(** ** Calendar arithmetic of [setMonth] *)

Lemma days_in_month_bounds y m : 28 <= days_in_month y m <= 31.
Proof.
  unfold days_in_month.
  repeat match goal with |- context [if ?b then _ else _] => destruct b end; lia.
Qed.

Lemma add_days_plus a b ymd : add_days (a + b) ymd = add_days b (add_days a ymd).
Proof. revert ymd. induction a as [|a IH]; intros ymd; simpl; [done | apply IH]. Qed.

(** Stepping inside one month only moves the day number. *)
Lemma add_days_within n y m k :
  k + Z.of_nat n <= days_in_month y m ->
  add_days n (y, m, k) = (y, m, k + Z.of_nat n).
Proof.
  revert k. induction n as [|n IH]; intros k Hk; simpl.
  - f_equal. lia.
  - destruct (Z.ltb_spec k (days_in_month y m)); [|lia].
    rewrite IH by lia. f_equal. lia.
Qed.

Lemma next_day_last y m :
  next_day (y, m, days_in_month y m)
  = ((following y m).1, (following y m).2, 1).
Proof.
  unfold next_day, following. rewrite Z.ltb_irrefl. by destruct (m <? 11).
Qed.

Lemma MakeDay_within y m dt :
  0 <= m <= 11 -> 1 <= dt <= days_in_month y m ->
  MakeDay y m dt = (y, m, dt).
Proof.
  intros Hm Hdt. unfold MakeDay.
  rewrite Z.div_small, Z.mod_small, Z.add_0_r by lia.
  rewrite add_days_within by lia. f_equal. lia.
Qed.

Lemma MakeDay_beyond y m dt :
  0 <= m <= 11 -> days_in_month y m < dt <= 31 ->
  MakeDay y m dt
  = ((following y m).1, (following y m).2, dt - days_in_month y m).
Proof.
  intros Hm Hdt. unfold MakeDay.
  rewrite Z.div_small, Z.mod_small, Z.add_0_r by lia.
  pose proof (days_in_month_bounds y m) as Hb.
  replace (Z.to_nat (dt - 1))
    with (Z.to_nat (days_in_month y m - 1) + (1 + Z.to_nat (dt - days_in_month y m - 1)))%nat
    by lia.
  rewrite add_days_plus, add_days_within by lia.
  replace (1 + Z.of_nat (Z.to_nat (days_in_month y m - 1))) with (days_in_month y m) by lia.
  cbn [Nat.add add_days]. rewrite next_day_last.
  pose proof (days_in_month_bounds (following y m).1 (following y m).2).
  rewrite add_days_within by lia. f_equal. lia.
Qed.

(** What [nextPaymentDate] is, for every date [new Date()] can return:
    with [(y, m)] the calendar month after that of [now], the same day of
    [(y, m)] when that month has such a day, otherwise the day that lies as
    many days into the month after [(y, m)] as [now]'s day exceeds the
    length of [(y, m)]. *)
Lemma nextPaymentDate_cases now :
  valid now ->
  let y := year now + (month now + 1) `div` 12 in
  let m := (month now + 1) `mod` 12 in
  (day now <= days_in_month y m ->
     nextPaymentDate now = Date y m (day now) (time_in_day now))
  /\ (days_in_month y m < day now ->
     nextPaymentDate now
     = Date (following y m).1 (following y m).2
         (day now - days_in_month y m) (time_in_day now)).
Proof.
  intros [Hm Hd] y m.
  pose proof (days_in_month_bounds (year now) (month now)) as Hb.
  assert (Hm' : 0 <= m <= 11).
  { pose proof (Z.mod_pos_bound (month now + 1) 12). subst m. lia. }
  assert (Hnorm : forall dt, MakeDay (year now) (month now + 1) dt = MakeDay y m dt).
  { intros dt. unfold MakeDay. subst y m.
    rewrite (Z.div_small (_ `mod` 12)), (Z.mod_small (_ `mod` 12)) by lia.
    by rewrite Z.add_0_r. }
  unfold nextPaymentDate, setMonth, getMonth. rewrite Hnorm. split; intros H.
  - by rewrite MakeDay_within by lia.
  - by rewrite MakeDay_beyond by lia.
Qed.

(** ** Membership rows *)

Lemma find_existsb {A : Type} (P : A -> bool) (l : list A) :
  find P l = None <-> existsb P l = false.
Proof.
  induction l as [|x l IH]; simpl; [done|].
  destruct (P x); simpl; [split; discriminate | exact IH].
Qed.

Lemma find_is_Some_existsb {A : Type} (P : A -> bool) (l : list A) :
  is_Some (find P l) <-> existsb P l = true.
Proof.
  induction l as [|x l IH]; simpl.
  - split; [intros [? ?]; discriminate | discriminate].
  - destruct (P x); simpl; [split; eauto | exact IH].
Qed.

Lemma existsb_snoc {A : Type} (P : A -> bool) (l : list A) (x : A) :
  existsb P (l ++ [x]) = existsb P l || P x.
Proof. rewrite existsb_app. simpl. by rewrite orb_false_r. Qed.

Lemma same_pair_spec u f m :
  same_pair u f m = true <-> m_user_id m = u /\ m_fanclub_id m = f.
Proof.
  unfold same_pair. rewrite andb_true_iff, !bool_decide_eq_true. done.
Qed.

Lemma same_pair_refl m : same_pair (m_user_id m) (m_fanclub_id m) m = true.
Proof. by apply same_pair_spec. Qed.

Lemma existsb_same_pair u f (ms : list membership_row) :
  existsb (same_pair u f) ms = true
  <-> Exists (fun m => m_user_id m = u /\ m_fanclub_id m = f) ms.
Proof.
  rewrite existsb_exists, Exists_exists. split.
  - intros (m & Hin & Hm). exists m. rewrite list_elem_of_In.
    by apply same_pair_spec in Hm.
  - intros (m & Hin & Hm). exists m. rewrite <- list_elem_of_In.
    by apply same_pair_spec in Hm.
Qed.

Lemma set_memberships_same d : set_memberships d (memberships d) = d.
Proof. by destruct d. Qed.

Lemma filter_none_removed {A : Type} (P : A -> bool) (l : list A) :
  length (filter (fun x => P x = true) l) = 0%nat ->
  filter (fun x => P x = false) l = l.
Proof.
  induction l as [|x l IH]; [done|].
  rewrite !filter_cons. destruct (P x) eqn:HP; simpl.
  - discriminate.
  - intros H. f_equal. by apply IH.
Qed.

Lemma filter_some_removed {A : Type} (P : A -> bool) (l : list A) :
  existsb P l = false <-> length (filter (fun x => P x = true) l) = 0%nat.
Proof.
  induction l as [|x l IH]; [done|].
  rewrite filter_cons. simpl. destruct (P x); simpl.
  - split; discriminate.
  - exact IH.
Qed.

Lemma existsb_after_delete {A : Type} (P : A -> bool) (l : list A) :
  existsb P (filter (fun x => P x = false) l) = false.
Proof.
  induction l as [|x l IH]; [done|].
  rewrite filter_cons. destruct (P x) eqn:HP; simpl.
  - exact IH.
  - by rewrite HP.
Qed.

Lemma filter_all_out {A : Type} (P : A -> Prop) `{!forall x, Decision (P x)}
    (l : list A) :
  (forall x, x ∈ l -> ~ P x) -> filter P l = [].
Proof.
  induction l as [|x l IH]; intros Hout; [done|].
  rewrite filter_cons_False by (apply Hout; left).
  apply IH. intros y Hy. apply Hout. by right.
Qed.

(** Under the UNIQUE constraint a pair selects at most one row. *)
Lemma unique_pair_once u f (ms : list membership_row) :
  NoDup (map (fun m => (m_user_id m, m_fanclub_id m)) ms) ->
  (length (filter (fun m => same_pair u f m = true) ms) <= 1)%nat.
Proof.
  induction ms as [|m ms IH]; simpl; [lia|].
  rewrite NoDup_cons. intros [Hnot Hnd]. rewrite filter_cons.
  destruct (decide (same_pair u f m = true)) as [Hm|]; [|by apply IH].
  simpl. enough (filter (fun m => same_pair u f m = true) ms = []) as -> by (simpl; lia).
  apply filter_all_out. intros m' Hin Hm'.
  apply same_pair_spec in Hm as [<- <-]. apply same_pair_spec in Hm' as [Hu Hf].
  apply Hnot, list_elem_of_fmap. exists m'. by rewrite Hu, Hf.
Qed.

Lemma unique_leaving_once u f (ms : list membership_row) :
  NoDup (map (fun m => (m_user_id m, m_fanclub_id m)) ms) ->
  (length (filter (fun m => leaving u f m = true) ms) <= 1)%nat.
Proof.
  intros Hnd. pose proof (unique_pair_once u f ms Hnd) as Hle.
  etrans; [|exact Hle]. clear. induction ms as [|m ms IH]; [done|].
  rewrite !filter_cons.
  destruct (decide (leaving u f m = true)) as [Hl|Hl];
    destruct (decide (same_pair u f m = true)) as [Hs|Hs]; simpl; try lia.
  unfold leaving in Hl. apply andb_true_iff in Hl as [? _]. done.
Qed.

Lemma unique_after_delete u f (ms : list membership_row) :
  NoDup (map (fun m => (m_user_id m, m_fanclub_id m)) ms) ->
  NoDup (map (fun m => (m_user_id m, m_fanclub_id m))
           (filter (fun m => leaving u f m = false) ms)).
Proof.
  induction ms as [|m ms IH]; [done|].
  simpl. rewrite NoDup_cons. intros [Hnot Hnd]. rewrite filter_cons.
  destruct (decide _); [|by apply IH].
  simpl. apply NoDup_cons. split; [|by apply IH].
  intros Hin. apply Hnot. apply list_elem_of_fmap in Hin as (m' & -> & Hin).
  apply list_elem_of_fmap. exists m'. split; [done|].
  by apply list_elem_of_filter in Hin as [_ ?].
Qed.

Lemma unique_after_insert row (ms : list membership_row) :
  existsb (same_pair (m_user_id row) (m_fanclub_id row)) ms = false ->
  NoDup (map (fun m => (m_user_id m, m_fanclub_id m)) ms) ->
  NoDup (map (fun m => (m_user_id m, m_fanclub_id m)) (ms ++ [row])).
Proof.
  intros Hnew Hnd. rewrite map_app. simpl.
  apply NoDup_app. split_and!; [done| |apply NoDup_singleton].
  intros pair Hin ->%list_elem_of_singleton.
  apply list_elem_of_fmap in Hin as (m & Heq & Hin).
  apply not_true_iff_false in Hnew. apply Hnew, existsb_exists.
  exists m. split; [by apply list_elem_of_In|].
  apply same_pair_spec. by inversion Heq.
Qed.

(** ** Joining *)

Lemma sqlite_insert_membership_inv row d d' :
  Sqlite.insert_membership row d = Some d' ->
  existsb (same_pair (m_user_id row) (m_fanclub_id row)) (memberships d) = false
  /\ d' = set_memberships d (memberships d ++ [row]).
Proof.
  unfold Sqlite.insert_membership. destruct (existsb _ _); [done|].
  intros [= <-]. done.
Qed.

Lemma supabase_insert_membership_inv row d d' :
  Supabase.insert_membership row d = Some d' ->
  existsb (same_pair (m_user_id row) (m_fanclub_id row)) (memberships d) = false
  /\ d' = set_memberships d (memberships d ++ [row]).
Proof.
  unfold Supabase.insert_membership. destruct (existsb _ _); [done|].
  destruct (users d !! m_user_id row), (fanclubs d !! m_fanclub_id row); try done.
  intros [= <-]. done.
Qed.

(** A join that answers success has appended exactly the new row. *)
Lemma sqlite_join_joined flt u f now d d' :
  Sqlite.post_join flt u f now d = (R200_joined, d') ->
  existsb (same_pair u f) (memberships d) = false
  /\ memberships d'
     = memberships d ++ [MembershipRow u f false (Some (nextPaymentDate now))].
Proof.
  unfold Sqlite.post_join, Sqlite.join_check, Sqlite.join_insert.
  destruct (fail1 flt); [done|].
  destruct (select_membership u f d); [done|].
  destruct (fail2 flt); [done|].
  destruct (Sqlite.insert_membership _ d) as [d1|] eqn:Hins; [|done].
  apply sqlite_insert_membership_inv in Hins as [Hnew ->].
  intros [= <-]. split; [done|]. by destruct (fail3 flt).
Qed.

Lemma supabase_join_joined flt u f now d d' :
  Supabase.post_join flt u f now d = (R200_joined, d') ->
  existsb (same_pair u f) (memberships d) = false
  /\ memberships d'
     = memberships d ++ [MembershipRow u f false (Some (nextPaymentDate now))].
Proof.
  unfold Supabase.post_join.
  destruct (Supabase.select_membership_single _ u f d); [done|].
  destruct (fail2 flt); [done|].
  destruct (Supabase.insert_membership _ d) as [d1|] eqn:Hins; [|done].
  apply supabase_insert_membership_inv in Hins as [Hnew ->].
  intros [= <-]. split; [done|]. by destruct (fail3 flt).
Qed.

(** C8, as the specification states it, fails: a user who joins fanclub 1
    on 31 January 2023 gets 3 March as next payment date, where clamping
    would give 28 February. *)
Lemma join_on_jan31_runs_into_march :
  (Sqlite.post_join no_faults 2 1 jan31 club_db).1 = R200_joined
  /\ m_next_payment_date
       <$> select_membership 2 1 (Sqlite.post_join no_faults 2 1 jan31 club_db).2
     = Some (Some (noon 2023 2 3))
  /\ Spec.one_month_later_clamped jan31 = noon 2023 1 28
  /\ noon 2023 2 3 <> Spec.one_month_later_clamped jan31.
Proof. vm_compute. split_and!; try reflexivity. discriminate. Qed.

(** C8, amended: on either server the row a successful join adds carries
    the join time moved by [setMonth] to the next calendar month [(y, m)]:
    the same day of [(y, m)] when that month has such a day (then it is the
    clamped date as well), and otherwise the day in the month after
    [(y, m)] that lies as many days in as the day exceeds the length of
    [(y, m)], which is not the clamped date. *)
Theorem join_next_payment_date flt u f now d d' :
  valid now ->
  Sqlite.post_join flt u f now d = (R200_joined, d')
  \/ Supabase.post_join flt u f now d = (R200_joined, d') ->
  let y := year now + (month now + 1) `div` 12 in
  let m := (month now + 1) `mod` 12 in
  exists due,
    memberships d' = memberships d ++ [MembershipRow u f false (Some due)]
    /\ due = nextPaymentDate now
    /\ (day now <= days_in_month y m ->
          due = Date y m (day now) (time_in_day now)
          /\ due = Spec.one_month_later_clamped now)
    /\ (days_in_month y m < day now ->
          due = Date (following y m).1 (following y m).2
                  (day now - days_in_month y m) (time_in_day now)
          /\ due <> Spec.one_month_later_clamped now).
Proof.
  intros Hvalid Hjoin y m. exists (nextPaymentDate now).
  assert (Hrows : memberships d'
    = memberships d ++ [MembershipRow u f false (Some (nextPaymentDate now))]).
  { destruct Hjoin as [H|H];
      [apply sqlite_join_joined in H | apply supabase_join_joined in H];
      by destruct H. }
  destruct (nextPaymentDate_cases now Hvalid) as [Hin Hout].
  fold y m in Hin, Hout. split_and!; [done|done| |].
  - intros Hle. split; [by apply Hin|]. rewrite Hin by done.
    unfold Spec.one_month_later_clamped. fold y m. by rewrite Z.min_l.
  - intros Hlt. split; [by apply Hout|]. rewrite Hout by done.
    unfold Spec.one_month_later_clamped. fold y m. rewrite Z.min_r by lia.
    pose proof (days_in_month_bounds y m). intros [= _ _ Hday]. 
    destruct Hvalid as [_ Hd].
    pose proof (days_in_month_bounds (year now) (month now)). lia.
Qed.

Lemma join_next_payment_date_witness :
  exists due,
    memberships (Sqlite.post_join no_faults 2 1 jan31 club_db).2
    = memberships club_db ++ [MembershipRow 2 1 false (Some due)]
    /\ due = noon 2023 2 3.
Proof.
  destruct (join_next_payment_date no_faults 2 1 jan31 club_db
              (Sqlite.post_join no_faults 2 1 jan31 club_db).2)
    as (due & Hrows & Hdue & _ & Hout).
  - unfold valid. vm_compute. split_and!; discriminate.
  - left. vm_compute. reflexivity.
  - exists due. split; [exact Hrows|].
    destruct Hout as [-> _]; [vm_compute; reflexivity|].
    vm_compute. reflexivity.
Defined.

(** The steps of one join request, by whether the pair is already there. *)
Section join_steps.

Variables (u f : Z) (now : date) (d : db).

Lemma join_check_absent :
  select_membership u f d = None ->
  Sqlite.join_check no_faults u f d = None.
Proof. unfold Sqlite.join_check. simpl. by intros ->. Qed.

Lemma join_check_present :
  existsb (same_pair u f) (memberships d) = true ->
  Sqlite.join_check no_faults u f d = Some R400_already_member.
Proof.
  intros H. apply find_is_Some_existsb in H as [row Hrow].
  unfold Sqlite.join_check, select_membership. simpl. by rewrite Hrow.
Qed.

Lemma join_insert_absent :
  select_membership u f d = None ->
  Sqlite.join_insert no_faults u f now d
  = (R200_joined,
     update_member_count f (fun n => n + 1)
       (set_memberships d
          (memberships d
             ++ [MembershipRow u f false (Some (nextPaymentDate now))]))).
Proof.
  intros H. apply find_existsb in H.
  unfold Sqlite.join_insert, Sqlite.insert_membership. simpl. by rewrite H.
Qed.

Lemma join_insert_present :
  existsb (same_pair u f) (memberships d) = true ->
  Sqlite.join_insert no_faults u f now d = (R500_membership_create_error, d).
Proof.
  intros H. unfold Sqlite.join_insert, Sqlite.insert_membership. simpl.
  by rewrite H.
Qed.

Lemma joined_present :
  existsb (same_pair u f)
    (memberships (Sqlite.join_insert no_faults u f now d).2) = true.
Proof.
  unfold Sqlite.join_insert, Sqlite.insert_membership. simpl.
  destruct (existsb (same_pair u f) (memberships d)) eqn:H; simpl; [done|].
  rewrite existsb_snoc. unfold same_pair at 2. simpl.
  rewrite !bool_decide_eq_true_2 by done. apply orb_true_r.
Qed.

Lemma joined_once :
  select_membership u f d = None ->
  length (filter (fun m => same_pair u f m = true)
            (memberships (Sqlite.join_insert no_faults u f now d).2)) = 1%nat.
Proof.
  intros H. rewrite (join_insert_absent H). simpl.
  apply find_existsb, filter_some_removed in H.
  rewrite filter_app, length_app, H, filter_cons_True; [done|].
  by apply same_pair_spec.
Qed.

Lemma join_step_arrived_absent :
  select_membership u f d = None ->
  join_step u f now Arrived d = (Checked, d).
Proof. intros H. unfold join_step. by rewrite join_check_absent. Qed.

Lemma join_step_arrived_present :
  existsb (same_pair u f) (memberships d) = true ->
  join_step u f now Arrived d = (Answered R400_already_member, d).
Proof. intros H. unfold join_step. by rewrite join_check_present. Qed.

Lemma join_step_checked_absent :
  select_membership u f d = None ->
  join_step u f now Checked d
  = (Answered R200_joined, (Sqlite.join_insert no_faults u f now d).2).
Proof. intros H. unfold join_step. by rewrite (join_insert_absent H). Qed.

Lemma join_step_checked_present :
  existsb (same_pair u f) (memberships d) = true ->
  join_step u f now Checked d = (Answered R500_membership_create_error, d).
Proof. intros H. unfold join_step. by rewrite join_insert_present. Qed.

End join_steps.

Lemma schedule_length (schedule : list bool) :
  length schedule
  = (length (filter (fun b => b = true) schedule)
     + length (filter (fun b => b = false) schedule))%nat.
Proof.
  induction schedule as [|[] s IH]; [done| |]; rewrite !filter_cons; simpl; lia.
Qed.

Lemma fair_schedules schedule :
  fair schedule ->
  schedule ∈ [ [true; true; false; false]; [true; false; true; false];
               [true; false; false; true]; [false; true; true; false];
               [false; true; false; true]; [false; false; true; true] ].
Proof.
  intros [Ht Hf].
  assert (Hlen : length schedule = 4%nat).
  { by rewrite schedule_length, Ht, Hf. }
  destruct schedule as [|a [|b [|c [|e [|? ?]]]]]; try discriminate.
  destruct a, b, c, e; try discriminate; set_solver.
Qed.

(** The handler has no answer with status 404. *)
Lemma sqlite_join_never_404 flt u f now d :
  status (Sqlite.post_join flt u f now d).1 <> 404.
Proof.
  unfold Sqlite.post_join, Sqlite.join_check, Sqlite.join_insert.
  repeat match goal with
         | |- context [if ?b then _ else _] => destruct b
         | |- context [match ?o with Some _ => _ | None => _ end] => destruct o
         end; simpl; lia.
Qed.

(** C4, as the specification states it, fails: user 2 joins fanclub 7, which
    does not exist, and the request succeeds and leaves a membership row;
    and when two joins of user 2 to fanclub 1 both pass the lookup before
    either inserts, the loser is answered with the insert error, not with
    "already a member". *)
Lemma join_of_missing_fanclub_succeeds :
  fanclubs club_db !! 7 = None
  /\ (Sqlite.post_join no_faults 2 7 jan15 club_db).1 = R200_joined
  /\ select_membership 2 7 (Sqlite.post_join no_faults 2 7 jan15 club_db).2
     = Some (MembershipRow 2 7 false (Some (noon 2023 1 15)))
  /\ (interleave 2 1 jan15 jan15 [true; false; true; false]
        Arrived Arrived club_db).1
     = (Answered R200_joined, Answered R500_membership_create_error).
Proof. vm_compute. split_and!; reflexivity. Qed.

(** C4, amended: a join never answers "not found" (status 404): the
    handler does not look the fanclub up. When the pair is already a
    member the join fails with "already a member" and changes nothing.
    Otherwise, for a fanclub that exists, the join succeeds, a second join
    after it fails with "already a member", and of two joins whose
    callbacks interleave exactly one succeeds and the other fails, with
    "already a member" or with the insert error of the UNIQUE constraint;
    one row for the pair results. *)
Theorem join_outcomes u f now1 now2 d schedule :
  fair schedule ->
  (forall flt, status (Sqlite.post_join flt u f now1 d).1 <> 404)
  /\ match select_membership u f d with
     | Some _ => Sqlite.post_join no_faults u f now1 d = (R400_already_member, d)
     | None =>
         is_Some (fanclubs d !! f) ->
         exists d1,
           Sqlite.post_join no_faults u f now1 d = (R200_joined, d1)
           /\ Sqlite.post_join no_faults u f now2 d1 = (R400_already_member, d1)
           /\ exists r1 r2 d2,
                interleave u f now1 now2 schedule Arrived Arrived d
                = (Answered r1, Answered r2, d2)
                /\ ((r1 = R200_joined
                     /\ (r2 = R400_already_member
                         \/ r2 = R500_membership_create_error))
                    \/ (r2 = R200_joined
                        /\ (r1 = R400_already_member
                            \/ r1 = R500_membership_create_error)))
                /\ length (filter (fun m => same_pair u f m = true)
                             (memberships d2)) = 1%nat
     end.
Proof.
  intros Hfair. split; [intros flt; apply sqlite_join_never_404|].
  destruct (select_membership u f d) as [row|] eqn:Hsel.
  { unfold Sqlite.post_join, Sqlite.join_check. simpl. by rewrite Hsel. }
  intros _.
  pose proof (joined_present u f now1 d) as Hp1.
  pose proof (joined_present u f now2 d) as Hp2.
  pose proof (joined_once u f now1 d Hsel) as Ho1.
  pose proof (joined_once u f now2 d Hsel) as Ho2.
  exists (Sqlite.join_insert no_faults u f now1 d).2. split_and!.
  - unfold Sqlite.post_join. rewrite join_check_absent by done.
    by rewrite (join_insert_absent u f now1 d Hsel).
  - unfold Sqlite.post_join. by rewrite join_check_present.
  - apply fair_schedules in Hfair.
    repeat (apply elem_of_cons in Hfair as [->|Hfair]);
      [..|by apply elem_of_nil in Hfair]; cbn [interleave];
      repeat first
        [ rewrite (join_step_arrived_absent u f _ d Hsel)
        | rewrite (join_step_checked_absent u f _ d Hsel)
        | rewrite (join_step_arrived_present u f _ _ Hp1)
        | rewrite (join_step_arrived_present u f _ _ Hp2)
        | rewrite (join_step_checked_present u f _ _ Hp1)
        | rewrite (join_step_checked_present u f _ _ Hp2)
        | progress cbn [join_step] ];
      do 3 eexists; (split; [reflexivity|]); (split; [|eassumption]); auto.
Qed.

Lemma join_outcomes_witness :
  Sqlite.post_join no_faults 1 1 jan15 club_db = (R400_already_member, club_db)
  /\ exists d1,
       Sqlite.post_join no_faults 2 1 jan15 club_db = (R200_joined, d1)
       /\ Sqlite.post_join no_faults 2 1 jan31 d1 = (R400_already_member, d1).
Proof.
  assert (Hfair : fair [true; false; true; false]) by (split; reflexivity).
  split.
  - exact (proj2 (join_outcomes 1 1 jan15 jan15 club_db _ Hfair)).
  - assert (Hclub : is_Some (fanclubs club_db !! 1))
      by (vm_compute; by eexists).
    destruct (proj2 (join_outcomes 2 1 jan15 jan31 club_db _ Hfair) Hclub)
      as (d1 & Hfirst & Hsecond & _).
    exists d1. split; [exact Hfirst | exact Hsecond].
Defined.

(** ** The member counter *)

Lemma count_after_insert f row (ms : list membership_row) :
  length (filter (fun m => m_fanclub_id m = f) (ms ++ [row]))
  = (length (filter (fun m => m_fanclub_id m = f) ms)
     + if decide (m_fanclub_id row = f) then 1 else 0)%nat.
Proof.
  rewrite filter_app, length_app. f_equal.
  rewrite filter_cons. by destruct (decide (m_fanclub_id row = f)).
Qed.

Lemma count_after_delete u g f (ms : list membership_row) :
  (length (filter (fun m => m_fanclub_id m = f)
             (filter (fun m => leaving u g m = false) ms))
   + (if decide (g = f)
      then length (filter (fun m => leaving u g m = true) ms) else 0))%nat
  = length (filter (fun m => m_fanclub_id m = f) ms).
Proof.
  induction ms as [|m ms IH]; [by destruct (decide (g = f))|].
  rewrite !(filter_cons _ m ms).
  destruct (leaving u g m) eqn:Hl; simpl.
  - apply andb_true_iff in Hl as [[_ Hg]%same_pair_spec _].
    destruct (decide (g = f)) as [->|Hne].
    + rewrite decide_True by done. simpl. lia.
    + rewrite decide_False by congruence. exact IH.
  - rewrite filter_cons.
    destruct (decide (m_fanclub_id m = f)); simpl; lia.
Qed.

Lemma count_matches_alter_other f g h d ms :
  g <> f ->
  length (filter (fun m => m_fanclub_id m = f) ms)
  = length (filter (fun m => m_fanclub_id m = f) (memberships d)) ->
  Spec.count_matches f d ->
  Spec.count_matches f (update_member_count g h (set_memberships d ms)).
Proof.
  intros Hne Hlen (row & Hrow & Hcount). exists row. simpl.
  rewrite lookup_alter_ne by done. split; [done|]. by rewrite Hlen.
Qed.

Lemma count_matches_rows_only f d ms :
  length (filter (fun m => m_fanclub_id m = f) ms)
  = length (filter (fun m => m_fanclub_id m = f) (memberships d)) ->
  Spec.count_matches f d ->
  Spec.count_matches f (set_memberships d ms).
Proof.
  intros Hlen (row & Hrow & Hcount). exists row. simpl.
  split; [done|]. by rewrite Hlen.
Qed.

(** One operation whose counter update goes through keeps the counter of
    every fanclub in step with its rows. *)
Lemma run_keeps_count o f d :
  counter_update_succeeds o ->
  unique_memberships d -> Spec.count_matches f d ->
  unique_memberships (run o d).2 /\ Spec.count_matches f (run o d).2.
Proof.
  intros Hupd Hnd Hcm. destruct o as [flt u g now|flt u g]; simpl in *.
  - unfold Sqlite.post_join, Sqlite.join_check, Sqlite.join_insert.
    destruct (fail1 flt); [done|].
    destruct (select_membership u g d); [done|].
    destruct (fail2 flt); [done|].
    destruct (Sqlite.insert_membership _ d) as [d1|] eqn:Hins; [|done].
    apply sqlite_insert_membership_inv in Hins as [Hnew ->].
    rewrite Hupd. simpl. split; [by apply unique_after_insert|].
    destruct (decide (g = f)) as [->|Hne].
    + destruct Hcm as (row & Hrow & Hcount).
      exists (set_member_count (f_member_count row + 1) row). simpl.
      rewrite lookup_alter_eq, Hrow. split; [done|].
      rewrite count_after_insert. simpl. rewrite decide_True by done.
      rewrite Hcount. lia.
    + apply count_matches_alter_other; [done| |done].
      rewrite count_after_insert. simpl. rewrite decide_False by done. lia.
  - unfold Sqlite.delete_leave, delete_membership.
    destruct (fail1 flt); [done|].
    pose proof (unique_leaving_once u g _ Hnd) as Hle.
    pose proof (count_after_delete u g f (memberships d)) as Hdel.
    case_bool_decide as Hch; simpl.
    + split; [by apply unique_after_delete|].
      apply count_matches_rows_only; [|done].
      rewrite Hch in Hdel. destruct (decide (g = f)); lia.
    + rewrite Hupd. simpl. split; [by apply unique_after_delete|].
      destruct (decide (g = f)) as [->|Hne].
      * destruct Hcm as (row & Hrow & Hcount).
        exists (set_member_count (f_member_count row - 1) row). simpl.
        rewrite lookup_alter_eq, Hrow. split; [done|].
        simpl. rewrite Hcount. lia.
      * apply count_matches_alter_other; [done|lia|done].
Qed.

(** An operation that is answered with an error has changed nothing. *)
Lemma run_failed_unchanged o d :
  succeeded (run o d).1 = false -> (run o d).2 = d.
Proof.
  destruct o as [flt u g now|flt u g]; simpl.
  - unfold Sqlite.post_join, Sqlite.join_check, Sqlite.join_insert.
    destruct (fail1 flt); [done|].
    destruct (select_membership u g d); [done|].
    destruct (fail2 flt); [done|].
    destruct (Sqlite.insert_membership _ d); [discriminate|done].
  - unfold Sqlite.delete_leave, delete_membership.
    destruct (fail1 flt); [done|].
    case_bool_decide as Hch; [|discriminate]. simpl. intros _.
    rewrite filter_none_removed by done. apply set_memberships_same.
Qed.

(** C3, as the specification states it, fails: bob joins fanclub 1, the
    counter update after the insert reports an error, which the handler
    only logs: the join succeeds with two membership rows and a counter
    of 1. *)
Lemma failed_counter_update_breaks_count :
  Spec.count_matches 1 club_db
  /\ (run (Join (Faults false false true) 2 1 jan15) club_db).1 = R200_joined
  /\ ~ Spec.count_matches 1
         (run_all [Join (Faults false false true) 2 1 jan15] club_db).
Proof.
  split_and!.
  - eexists. split; [vm_compute; reflexivity|]. vm_compute. reflexivity.
  - vm_compute. reflexivity.
  - intros (row & Hrow & Hcount). vm_compute in Hrow.
    injection Hrow as <-. vm_compute in Hcount. discriminate.
Qed.

(** C3, amended: starting from a database in which the counter of fanclub
    [f] equals the number of its membership rows, after every sequence of
    join and leave requests whose counter updates all go through it still
    does. The membership statement and the counter update are two
    statements, not one atomic unit: a request answered with an error has
    changed neither the rows nor the counter, while a counter update that
    fails is only logged and the membership change stays. *)
Theorem member_count_invariant f os d :
  Forall counter_update_succeeds os ->
  unique_memberships d ->
  Spec.count_matches f d ->
  Spec.count_matches f (run_all os d)
  /\ unique_memberships (run_all os d)
  /\ (forall o d0, succeeded (run o d0).1 = false -> (run o d0).2 = d0).
Proof.
  intros Hos Hnd Hcm.
  assert (Hboth : unique_memberships (run_all os d)
                  /\ Spec.count_matches f (run_all os d)).
  { revert d Hnd Hcm. induction Hos as [|o os Ho Hos IH]; intros d Hnd Hcm.
    - done.
    - destruct (run_keeps_count o f d Ho Hnd Hcm) as [Hnd' Hcm'].
      simpl. by apply IH. }
  destruct Hboth. split_and!; [done|done|apply run_failed_unchanged].
Qed.

Lemma member_count_invariant_witness :
  Spec.count_matches 1
    (run_all [Join no_faults 2 1 jan15; Join no_faults 3 1 jan31;
              Leave no_faults 2 1; Leave no_faults 1 1] club_db).
Proof.
  apply (member_count_invariant 1
           [Join no_faults 2 1 jan15; Join no_faults 3 1 jan31;
            Leave no_faults 2 1; Leave no_faults 1 1] club_db).
  - repeat constructor.
  - unfold unique_memberships. vm_compute. apply NoDup_singleton.
  - eexists. split; [vm_compute; reflexivity|]. vm_compute. reflexivity.
Defined.

(** ** Leaving *)











(** The Supabase handler does not look at the number of deleted rows: the
    owner's leave deletes nothing, still decrements the counter and is
    answered with success. *)
Lemma supabase_leave_of_owner_decrements :
  f_member_count <$> fanclubs supabase_club_db !! 1 = Some 1
  /\ (Supabase.delete_leave no_faults 1 1 supabase_club_db).1 = R200_left
  /\ memberships (Supabase.delete_leave no_faults 1 1 supabase_club_db).2
     = memberships supabase_club_db
  /\ f_member_count
       <$> fanclubs (Supabase.delete_leave no_faults 1 1 supabase_club_db).2 !! 1
     = Some 0.
Proof. vm_compute. split_and!; reflexivity. Qed.

(** The SQL function of the Supabase schema never leaves a negative
    counter. *)
Lemma decrement_member_count_floor f d row :
  fanclubs (Supabase.decrement_member_count f d) !! f = Some row ->
  0 <= f_member_count row.
Proof.
  unfold Supabase.decrement_member_count, update_member_count. simpl.
  rewrite lookup_alter_eq. destruct (fanclubs d !! f); [|done].
  intros [= <-]. simpl. lia.
Qed.

(** C9 on the SQLite server: its decrement is [member_count - 1] without
    the floor the Supabase function has. After two users joined fanclub 1
    before it was created and one of them left, the counter is 0 and a
    membership row is left; the leave of the second user succeeds and
    takes the counter to -1, where the Supabase decrement gives 0. *)
Theorem sqlite_leave_takes_counter_below_zero :
  f_member_count <$> fanclubs early_joins_db !! 1 = Some 0
  /\ Sqlite.delete_leave no_faults 3 1 early_joins_db
     = (R200_left,
        update_member_count 1 (fun n => n - 1)
          (set_memberships early_joins_db [MembershipRow 1 1 true None]))
  /\ f_member_count
       <$> fanclubs (Sqlite.delete_leave no_faults 3 1 early_joins_db).2 !! 1
     = Some (-1)
  /\ f_member_count
       <$> fanclubs (Supabase.decrement_member_count 1 early_joins_db) !! 1
     = Some 0.
Proof. vm_compute. split_and!; reflexivity. Qed.

(** The same end without any join before the fanclub exists: bob and carol
    join fanclub 1 and both counter updates fail, so the counter stays at
    1 with three rows; their two leaves take it to -1. *)
Lemma sqlite_counter_below_zero_after_failed_updates :
  f_member_count
    <$> fanclubs
          (run_all [Join (Faults false false true) 2 1 jan15;
                    Join (Faults false false true) 3 1 jan15;
                    Leave no_faults 2 1; Leave no_faults 3 1] club_db) !! 1
  = Some (-1).
Proof. vm_compute. reflexivity. Qed.

(** The membership scenario of the specification on the SQLite server:
    alice creates a fanclub (counter 1), bob joins (counter 2) and leaves
    (counter 1), alice's own leave fails and the counter stays 1. *)
Example membership_scenario :
  f_member_count <$> fanclubs club_db !! 1 = Some 1
  /\ Spec.isOwner 1 1 club_db
  /\ f_member_count <$> fanclubs club_with_bob !! 1 = Some 2
  /\ f_member_count
       <$> fanclubs (run_all [Leave no_faults 2 1] club_with_bob) !! 1
     = Some 1
  /\ run (Leave no_faults 1 1) (run_all [Leave no_faults 2 1] club_with_bob)
     = (R400_leave_failed, run_all [Leave no_faults 2 1] club_with_bob).
Proof.
  split_and!; try (vm_compute; reflexivity).
  unfold Spec.isOwner. vm_compute. by left.
Qed.

(** ** Creating a fanclub *)

(** What a creation that passed validation and whose fanclub insert went
    through leaves behind: the fanclub row with counter 1, and the
    owner's membership row unless the second insert failed. *)
Lemma sqlite_created flt user b d id d' :
  Sqlite.post_fanclubs flt user b d = (R201_fanclub_created id, d') ->
  (exists row, fanclubs d' !! id = Some row
     /\ f_member_count row = 1 /\ f_owner_id row = user)
  /\ memberships d'
     = if fail2 flt || existsb (same_pair user id) (memberships d)
       then memberships d
       else memberships d ++ [MembershipRow user id true None].
Proof.
  unfold Sqlite.post_fanclubs, Sqlite.insert_fanclub, Sqlite.insert_membership.
  destruct (negb _ || negb _); [done|]. destruct (fail1 flt); [done|].
  intros [= <- <-]. split.
  - destruct (fail2 flt); simpl;
      [|destruct (existsb _ _); simpl];
      (eexists; split; [apply lookup_insert_eq|done]).
  - destruct (fail2 flt); simpl; [done|]. by destruct (existsb _ _).
Qed.

Lemma supabase_created flt fresh user b d id d' :
  Supabase.post_fanclubs flt fresh user b d = (R201_fanclub_created id, d') ->
  (exists row, fanclubs d' !! id = Some row
     /\ f_member_count row = 1 /\ f_owner_id row = user)
  /\ memberships d'
     = if fail2 flt || existsb (same_pair user id) (memberships d)
       then memberships d
       else memberships d ++ [MembershipRow user id true None].
Proof.
  unfold Supabase.post_fanclubs, Supabase.insert_fanclub,
    Supabase.insert_membership.
  destruct (negb _ || negb _); [done|]. destruct (fail1 flt); [done|].
  destruct (fanclubs d !! fresh) eqn:Hfresh; [done|].
  destruct (users d !! user) eqn:Huser; [|done].
  intros [= <- <-]. split.
  - destruct (fail2 flt); simpl;
      [|destruct (existsb _ _); simpl;
        [|rewrite Huser, lookup_insert_eq; simpl]];
      (eexists; split; [apply lookup_insert_eq|done]).
  - destruct (fail2 flt); simpl; [done|].
    destruct (existsb _ _); simpl; [done|].
    by rewrite Huser, lookup_insert_eq.
Qed.

Lemma create_rejected flt fresh user b d r d' :
  Sqlite.post_fanclubs flt user b d = (r, d')
  \/ Supabase.post_fanclubs flt fresh user b d = (r, d') ->
  succeeded r = false -> d' = d.
Proof.
  unfold Sqlite.post_fanclubs, Supabase.post_fanclubs, Sqlite.insert_fanclub.
  destruct (negb _ || negb _); [by intros [[= <- <-]|[= <- <-]]|].
  destruct (fail1 flt); [by intros [[= <- <-]|[= <- <-]]|].
  destruct (Supabase.insert_fanclub fresh user b d);
    by intros [[= <- <-]|[= <- <-]].
Qed.

(** C7, as the specification states it, fails: the fanclub insert goes
    through, the insert of the owner's membership reports an error, which
    the handler only logs: the creation succeeds and leaves fanclub 1
    without a membership row. *)
Lemma created_without_owner_membership :
  (Sqlite.post_fanclubs (Faults false true false) 1 club_body three_users).1
  = R201_fanclub_created 1
  /\ is_Some (fanclubs (Sqlite.post_fanclubs (Faults false true false) 1
                          club_body three_users).2 !! 1)
  /\ memberships (Sqlite.post_fanclubs (Faults false true false) 1
                    club_body three_users).2 = [].
Proof. vm_compute. split_and!; [reflexivity|by eexists|reflexivity]. Qed.

(** The same without any statement failing for an outside reason: user 1
    joined fanclub 1 before it existed, so the insert of the owner's row
    violates UNIQUE(user_id, fanclub_id) and the new fanclub has its
    creator as an ordinary member, not as owner. *)
Lemma created_after_early_join_has_no_owner :
  Sqlite.post_fanclubs no_faults 1 club_body owner_joined_early_db
  = (R201_fanclub_created 1,
     set_fanclubs owner_joined_early_db
       (<[1 := FanclubRow (JStr "club") (JStr "about") (JNum 500) (JStr "fans")
                 JUndefined 1 1]> ∅) 1)
  /\ memberships owner_joined_early_db
     = [MembershipRow 1 1 false (Some (noon 2023 1 15))].
Proof. vm_compute. split; reflexivity. Qed.

(** C7, amended: on either server a creation without a name or without a
    purpose fails with the validation error and changes nothing, and so
    does every creation answered with an error. A successful creation has
    inserted the fanclub row, owned by the caller and with [member_count]
    1, and after it, as a second statement, the owner's membership row
    with [is_owner] true; the two are not one atomic unit: when the second
    insert fails (by an error of the storage or because a row for the pair
    is already there) the failure is at most logged and the creation still
    succeeds. *)
Theorem create_outcomes flt fresh user b d r d' :
  Sqlite.post_fanclubs flt user b d = (r, d')
  \/ Supabase.post_fanclubs flt fresh user b d = (r, d') ->
  (truthy (b_name b) && truthy (b_purpose b) = false ->
     r = R400_missing_fields /\ d' = d)
  /\ (succeeded r = false -> d' = d)
  /\ (forall id, r = R201_fanclub_created id ->
        (exists row, fanclubs d' !! id = Some row
           /\ f_member_count row = 1 /\ f_owner_id row = user)
        /\ memberships d'
           = if fail2 flt || existsb (same_pair user id) (memberships d)
             then memberships d
             else memberships d ++ [MembershipRow user id true None]).
Proof.
  intros Hrun. split_and!.
  - intros Hbad. apply andb_false_iff in Hbad.
    assert (Hneg : negb (truthy (b_name b)) || negb (truthy (b_purpose b)) = true).
    { destruct Hbad as [-> | ->]; simpl; [done|apply orb_true_r]. }
    unfold Sqlite.post_fanclubs, Supabase.post_fanclubs in Hrun.
    rewrite Hneg in Hrun. by destruct Hrun as [[= <- <-]|[= <- <-]].
  - by eapply create_rejected.
  - intros id ->. destruct Hrun as [H|H];
      [by eapply sqlite_created | by eapply supabase_created].
Qed.

Lemma create_outcomes_witness :
  exists row, fanclubs club_db !! 1 = Some row
    /\ f_member_count row = 1 /\ f_owner_id row = 1.
Proof.
  destruct (create_outcomes no_faults 0 1 club_body three_users
              (R201_fanclub_created 1) club_db) as (_ & _ & Hok).
  - left. vm_compute. reflexivity.
  - destruct (Hok 1 eq_refl) as [Hrow _]. exact Hrow.
Defined.

(** ** Publishing *)

Lemma owner_lookup_spec u f d :
  is_Some (select_owner_membership u f d) <-> Spec.canPublish u f d.
Proof.
  unfold select_owner_membership, Spec.canPublish, Spec.isOwner.
  rewrite find_is_Some_existsb, existsb_exists, Exists_exists. split.
  - intros (m & Hin & [Hpair Hown]%andb_true_iff). exists m.
    apply same_pair_spec in Hpair as [? ?]. by rewrite list_elem_of_In.
  - intros (m & Hin & Hu & Hf & Hown). exists m. rewrite <- list_elem_of_In.
    split; [done|]. apply andb_true_iff. split; [|done]. by apply same_pair_spec.
Qed.

Lemma single_Some_elem {A : Type} (l : list A) x :
  Supabase.single l = Some x -> x ∈ l.
Proof. destruct l as [|a [|b l]]; try done. intros [= ->]. by left. Qed.

Lemma owner_single_spec failed u f d m :
  Supabase.select_owner_single failed u f d = Some m -> Spec.canPublish u f d.
Proof.
  unfold Supabase.select_owner_single. destruct failed; [done|].
  intros [Hm Hin]%single_Some_elem%list_elem_of_filter.
  apply owner_lookup_spec, find_is_Some_existsb, existsb_exists.
  exists m. by rewrite <- list_elem_of_In.
Qed.

Lemma owner_single_none failed u f d :
  ~ Spec.canPublish u f d -> Supabase.select_owner_single failed u f d = None.
Proof.
  intros Hno. destruct (Supabase.select_owner_single failed u f d) eqn:H; [|done].
  by apply owner_single_spec in H.
Qed.

Lemma owner_single_some u f d :
  unique_memberships d -> Spec.canPublish u f d ->
  is_Some (Supabase.select_owner_single false u f d).
Proof.
  intros Hnd (m & Hin & Hu & Hf & Hown)%Exists_exists.
  unfold Supabase.select_owner_single.
  assert (Hm : m ∈ filter (fun m => same_pair u f m && m_is_owner m = true)
                 (memberships d)).
  { apply list_elem_of_filter. split; [|done]. apply andb_true_iff.
    split; [by apply same_pair_spec|done]. }
  assert (Hle : (length (filter (fun m => same_pair u f m && m_is_owner m = true)
                           (memberships d)) <= 1)%nat).
  { etrans; [|apply (unique_pair_once u f _ Hnd)]. clear.
    induction (memberships d) as [|m ms IH]; [done|].
    rewrite !filter_cons.
    destruct (decide (same_pair u f m && m_is_owner m = true)) as [Hl|Hl];
      destruct (decide (same_pair u f m = true)) as [Hs|Hs]; simpl; try lia.
    apply andb_true_iff in Hl as [? _]. done. }
  destruct (filter _ (memberships d)) as [|a [|b l]]; simpl in *; [|done|lia].
  by apply elem_of_nil in Hm.
Qed.

Lemma bound_text_accepted v vis :
  check_visibility v = Some vis ->
  check_visibility (Sqlite.bind_value v) = Some vis.
Proof. by destruct v. Qed.

Lemma bound_text_refused v :
  check_visibility (Sqlite.bind_value v) = None -> check_visibility v = None.
Proof. by destruct v. Qed.

Lemma sqlite_insert_post_inv user f b v now d id d' :
  Sqlite.insert_post user f b v now d = Some (id, d') ->
  exists vis, check_visibility (Sqlite.bind_value v) = Some vis
    /\ id = posts_seq d + 1
    /\ d' = set_posts d
              (posts d ++ [PostRow id f user (b_title b) (b_content b)
                             (b_excerpt b) (b_featured_image_url b) vis now]) id.
Proof.
  unfold Sqlite.insert_post.
  destruct (check_visibility (Sqlite.bind_value v)) as [vis|]; [|done].
  intros [= <- <-]. by exists vis.
Qed.

Lemma supabase_insert_post_inv fresh user f b v now d d' :
  Supabase.insert_post fresh user f b v now d = Some d' ->
  exists vis, check_visibility v = Some vis
    /\ d' = set_posts d
              (posts d ++ [PostRow fresh f user (b_title b) (b_content b)
                             (b_excerpt b) (b_featured_image_url b) vis now])
              (posts_seq d).
Proof.
  unfold Supabase.insert_post. destruct (check_visibility v) as [vis|]; [|done].
  destruct (users d !! user), (fanclubs d !! f); try done.
  intros [= <-]. by exists vis.
Qed.

(** C6: the ownership lookup of the handlers decides [canPublish], in both
    directions. On either server a post is only created for a user who
    owns the fanclub, and a publish attempt of anyone else, an ordinary
    member included, creates nothing and is answered 403 when it carries a
    title and a text and the lookup itself does not fail. The owner is
    never answered 403, and the owner's request with a title, a text and a
    visibility the table accepts is answered 201 and appends one post of
    that author to that fanclub. *)
Theorem publish_only_by_owner flt fresh user f b now d r d' :
  Sqlite.post_posts flt user f b now d = (r, d')
  \/ Supabase.post_posts flt fresh user f b now d = (r, d') ->
  (Spec.canPublish user f d <-> is_Some (select_owner_membership user f d))
  /\ (succeeded r = true -> Spec.canPublish user f d)
  /\ (~ Spec.canPublish user f d ->
        d' = d /\ succeeded r = false
        /\ (truthy (b_title b) = true -> truthy (b_content b) = true ->
            fail1 flt = false -> r = R403_no_post_permission))
  /\ (Spec.canPublish user f d ->
        (Sqlite.post_posts flt user f b now d).1 <> R403_no_post_permission
        /\ (unique_memberships d -> fail1 flt = false ->
            (Supabase.post_posts flt fresh user f b now d).1
            <> R403_no_post_permission)
        /\ (truthy (b_title b) = true -> truthy (b_content b) = true ->
            forall vis,
              check_visibility (js_or (b_visibility b) (JStr "public"))
              = Some vis ->
              (exists p,
                 Sqlite.post_posts no_faults user f b now d
                 = (R201_post_created (posts_seq d + 1),
                    set_posts d (posts d ++ [p]) (posts_seq d + 1))
                 /\ p_id p = posts_seq d + 1 /\ p_fanclub_id p = f
                 /\ p_author_id p = user /\ p_visibility p = vis)
              /\ (unique_memberships d -> is_Some (users d !! user) ->
                  is_Some (fanclubs d !! f) ->
                  exists p,
                    Supabase.post_posts no_faults fresh user f b now d
                    = (R201_post_created fresh,
                       set_posts d (posts d ++ [p]) (posts_seq d))
                    /\ p_id p = fresh /\ p_fanclub_id p = f
                    /\ p_author_id p = user /\ p_visibility p = vis))).
Proof.
  intros Hrun. split; [symmetry; apply owner_lookup_spec|].
  assert (Hold : (succeeded r = true -> Spec.canPublish user f d)
    /\ (~ Spec.canPublish user f d ->
          d' = d /\ succeeded r = false
          /\ (truthy (b_title b) = true -> truthy (b_content b) = true ->
              fail1 flt = false -> r = R403_no_post_permission))).
  { unfold Sqlite.post_posts, Supabase.post_posts in Hrun.
    destruct (truthy (b_title b)), (truthy (b_content b));
      cbn [negb orb] in Hrun;
      try (destruct Hrun as [[= <- <-]|[= <- <-]]; (split; [done|]);
           intros _; split_and!; done).
    destruct (select_owner_membership user f d) as [m|] eqn:Hsql.
    - assert (Hcan : Spec.canPublish user f d)
        by (apply owner_lookup_spec; eauto).
      split; [done|]. by intros Hno.
    - assert (Hno : ~ Spec.canPublish user f d).
      { intros H%owner_lookup_spec. rewrite Hsql in H. by destruct H. }
      rewrite (owner_single_none _ _ _ _ Hno) in Hrun.
      split; [|intros _];
        destruct Hrun as [Hrun|[= <- <-]]; try done;
        destruct (fail1 flt); injection Hrun as <- <-; done. }
  destruct Hold as [Honly Hno]. split; [exact Honly|]. split; [exact Hno|].
  clear Hrun Honly Hno. intros Hcan.
  pose proof Hcan as [m Hm]%owner_lookup_spec. split_and!.
  - unfold Sqlite.post_posts. rewrite Hm.
    destruct (negb _ || negb _); [done|]. destruct (fail1 flt); [done|].
    destruct (fail2 flt); [done|].
    by destruct (Sqlite.insert_post _ _ _ _ _ _) as [[? ?]|].
  - intros Hnd Hf1. unfold Supabase.post_posts. rewrite Hf1.
    destruct (owner_single_some user f d Hnd Hcan) as [m' ->].
    destruct (negb _ || negb _); [done|]. destruct (fail2 flt); [done|].
    by destruct (Supabase.insert_post _ _ _ _ _ _ _).
  - intros Htitle Hcontent vis Hvis. split.
    + eexists. unfold Sqlite.post_posts, Sqlite.insert_post.
      rewrite Htitle, Hcontent, Hm, (bound_text_accepted _ _ Hvis).
      cbn [fail1 fail2 no_faults negb orb]. split_and!; done.
    + intros Hnd [u Hu] [row Hrow]. eexists.
      unfold Supabase.post_posts, Supabase.insert_post.
      rewrite Htitle, Hcontent, Hvis. cbn [fail1 fail2 no_faults negb orb].
      destruct (owner_single_some user f d Hnd Hcan) as [m' ->].
      rewrite Hu, Hrow. split_and!; done.
Qed.

Lemma publish_only_by_owner_witness :
  Sqlite.post_posts no_faults 2 1 plain_post 1000 club_with_bob
  = (R403_no_post_permission, club_with_bob)
  /\ exists p,
       Sqlite.post_posts no_faults 1 1 plain_post 1000 club_with_bob
       = (R201_post_created 1, set_posts club_with_bob [p] 1)
       /\ p_author_id p = 1.
Proof.
  split.
  - destruct (publish_only_by_owner no_faults 0 2 1 plain_post 1000
                club_with_bob
                (Sqlite.post_posts no_faults 2 1 plain_post 1000 club_with_bob).1
                (Sqlite.post_posts no_faults 2 1 plain_post 1000 club_with_bob).2)
      as (_ & _ & Hno & _).
    + left. vm_compute. reflexivity.
    + destruct Hno as (Hsame & _ & H403).
      * intros H%owner_lookup_spec. vm_compute in H. by destruct H.
      * apply injective_projections; [by apply H403 | exact Hsame].
  - destruct (publish_only_by_owner no_faults 0 1 1 plain_post 1000
                club_with_bob
                (Sqlite.post_posts no_faults 1 1 plain_post 1000 club_with_bob).1
                (Sqlite.post_posts no_faults 1 1 plain_post 1000 club_with_bob).2)
      as (_ & _ & _ & Hown).
    + left. vm_compute. reflexivity.
    + destruct Hown as (_ & _ & Hcreated).
      * apply owner_lookup_spec. vm_compute. by eexists.
      * destruct (proj1 (Hcreated eq_refl eq_refl "public"%string eq_refl))
          as (p & Hrun & _ & _ & Hauthor & _).
        exists p. split; [exact Hrun | exact Hauthor].
Defined.

(** C10: an owner who sends a title and a text and leaves the visibility
    out (absent, empty, or any other falsy value) gets the post created,
    and the stored row has visibility ["public"]; on either server, every
    post created from a body without visibility is the appended row with
    visibility ["public"]. *)
Theorem omitted_visibility_is_public flt fresh user f b now d :
  truthy (b_visibility b) = false ->
  truthy (b_title b) = true ->
  truthy (b_content b) = true ->
  Spec.canPublish user f d ->
  let stored id :=
    PostRow id f user (b_title b) (b_content b) (b_excerpt b)
      (b_featured_image_url b) "public" now in
  Sqlite.post_posts no_faults user f b now d
  = (R201_post_created (posts_seq d + 1),
     set_posts d (posts d ++ [stored (posts_seq d + 1)]) (posts_seq d + 1))
  /\ (unique_memberships d -> is_Some (users d !! user) ->
      is_Some (fanclubs d !! f) ->
      Supabase.post_posts no_faults fresh user f b now d
      = (R201_post_created fresh,
         set_posts d (posts d ++ [stored fresh]) (posts_seq d)))
  /\ (forall id d',
        Sqlite.post_posts flt user f b now d = (R201_post_created id, d')
        \/ Supabase.post_posts flt fresh user f b now d
           = (R201_post_created id, d') ->
        posts d' = posts d ++ [stored id]).
Proof.
  intros Hvis Htitle Hcontent Hcan stored.
  assert (Hor : js_or (b_visibility b) (JStr "public") = JStr "public")
    by (unfold js_or; by rewrite Hvis).
  split_and!.
  - unfold Sqlite.post_posts. rewrite Htitle, Hcontent, Hor. cbn [fail1 fail2 fail3 no_faults negb orb].
    apply owner_lookup_spec in Hcan as [m ->]. done.
  - intros Hnd [u Hu] [row Hrow]. unfold Supabase.post_posts.
    rewrite Htitle, Hcontent, Hor. cbn [fail1 fail2 fail3 no_faults negb orb].
    destruct (owner_single_some user f d Hnd Hcan) as [m ->].
    unfold Supabase.insert_post. cbn [check_visibility]. simpl. by rewrite Hu, Hrow.
  - intros id d'. unfold Sqlite.post_posts, Supabase.post_posts.
    rewrite Htitle, Hcontent, Hor. cbn [fail1 fail2 fail3 no_faults negb orb]. intros [Hrun|Hrun].
    + destruct (fail1 flt); [done|].
      destruct (select_owner_membership user f d); [|done].
      destruct (fail2 flt); [done|].
      destruct (Sqlite.insert_post _ _ _ _ _ _) as [[id' d1]|] eqn:Hins; [|done].
      apply sqlite_insert_post_inv in Hins as (vis & [= <-] & -> & ->).
      by injection Hrun as <- <-.
    + destruct (Supabase.select_owner_single _ _ _ _); [|done].
      destruct (fail2 flt); [done|].
      destruct (Supabase.insert_post _ _ _ _ _ _ _) as [d1|] eqn:Hins; [|done].
      apply supabase_insert_post_inv in Hins as (vis & [= <-] & ->).
      by injection Hrun as <- <-.
Qed.

Lemma omitted_visibility_is_public_witness :
  Sqlite.post_posts no_faults 1 1 empty_visibility_post 1000 club_db
  = (R201_post_created 1,
     set_posts club_db
       [PostRow 1 1 1 (JStr "hello") (JStr "first post") JUndefined JUndefined
          "public" 1000] 1).
Proof.
  refine (proj1 (omitted_visibility_is_public no_faults 0 1 1
                   empty_visibility_post 1000 club_db eq_refl eq_refl eq_refl _)).
  apply owner_lookup_spec. vm_compute. by eexists.
Defined.

(** ** Listing posts *)

#[global] Instance newest_first_total {A : Type} (post_of : A -> post_row) :
  Total (newest_first post_of).
Proof. intros a b. unfold newest_first. lia. Qed.

Lemma sorted_by_post {A : Type} (post_of : A -> post_row) (l : list A) :
  Sorted (newest_first post_of) l
  <-> Sorted (newest_first id) (map post_of l).
Proof.
  induction l as [|a l IH]; simpl; [split; constructor|].
  split; intros H; apply Sorted_inv in H as [Hs Hhd];
    (constructor; [by apply IH|]); destruct l; simpl in *;
    constructor; by apply HdRel_inv in Hhd.
Qed.

Lemma isMember_existsb u f d :
  existsb (same_pair u f) (memberships d) = true <-> Spec.isMember u f d.
Proof. apply existsb_same_pair. Qed.

(** The WHERE clause of the SQLite listing is the visibility gate. *)
Lemma where_clause_spec f viewer d p :
  Sqlite.where_clause f viewer d p = true
  <-> p_fanclub_id p = f /\ Spec.canView viewer p d.
Proof.
  unfold Sqlite.where_clause, Spec.canView.
  rewrite andb_true_iff, bool_decide_eq_true.
  split; intros [Hf Hvis]; (split; [done|]); subst f; destruct viewer as [u|].
  - apply orb_true_iff in Hvis as [?%bool_decide_eq_true|Hvis]; [by left|].
    apply andb_true_iff in Hvis as [?%bool_decide_eq_true ?%isMember_existsb].
    by right.
  - apply bool_decide_eq_true in Hvis. by left.
  - apply orb_true_iff. destruct Hvis as [?|[? ?]]; [left|right].
    + by apply bool_decide_eq_true.
    + apply andb_true_iff. split; [by apply bool_decide_eq_true|].
      by apply isMember_existsb.
  - destruct Hvis as [?|[_ []]]. by apply bool_decide_eq_true.
Qed.

Lemma with_author_all d (l : list post_row) :
  Forall (fun p => is_Some (users d !! p_author_id p)) l ->
  map pv_post (omap (with_author d) l) = l.
Proof.
  induction 1 as [|p l [u Hu] _ IH]; [done|].
  cbn [omap list_omap]. unfold with_author at 1. rewrite Hu.
  cbn [map pv_post]. f_equal. exact IH.
Qed.

(** The membership lookup of the Supabase listing, under the UNIQUE
    constraint. *)
Lemma membership_single_spec u f d :
  unique_memberships d ->
  is_Some (Supabase.select_membership_single false u f d) <-> Spec.isMember u f d.
Proof.
  intros Hnd. unfold Supabase.select_membership_single.
  pose proof (unique_pair_once u f _ Hnd) as Hle.
  rewrite <- isMember_existsb. split.
  - intros [m Hm%single_Some_elem]. apply list_elem_of_filter in Hm as [Hm Hin].
    apply existsb_exists. exists m. by rewrite <- list_elem_of_In.
  - intros (m & Hin%list_elem_of_In & Hm)%existsb_exists.
    assert (Hf : m ∈ filter (fun m => same_pair u f m = true) (memberships d))
      by by apply list_elem_of_filter.
    destruct (filter _ (memberships d)) as [|a [|b l]]; simpl in *;
      [by apply elem_of_nil in Hf|by eexists|lia].
Qed.

(** The visibilities the Supabase listing asks for are those the gate
    lets through. *)
Lemma supabase_visibilities_spec f viewer d p :
  unique_memberships d ->
  let visibilities :=
    match viewer with
    | Some u =>
        match Supabase.select_membership_single false u f d with
        | Some _ => ["public"; "members"]
        | None => ["public"]
        end
    | None => ["public"]
    end in
  p_fanclub_id p = f /\ p_visibility p ∈ visibilities
  <-> p_fanclub_id p = f /\ Spec.canView viewer p d.
Proof.
  intros Hnd visibilities. unfold Spec.canView.
  split; intros [Hf Hvis]; (split; [done|]); subst f visibilities;
    destruct viewer as [u|].
  - pose proof (membership_single_spec u (p_fanclub_id p) d Hnd) as Hspec.
    destruct (Supabase.select_membership_single _ _ _ _).
    + apply elem_of_cons in Hvis as [?|Hvis]; [by left|].
      apply list_elem_of_singleton in Hvis. right. split; [done|].
      apply Hspec. by eexists.
    + apply list_elem_of_singleton in Hvis. by left.
  - apply list_elem_of_singleton in Hvis. by left.
  - pose proof (membership_single_spec u (p_fanclub_id p) d Hnd) as Hspec.
    destruct Hvis as [->|[-> Hmem]].
    + destruct (Supabase.select_membership_single _ _ _ _); by left.
    + apply Hspec in Hmem as [m ->]. right. by left.
  - destruct Hvis as [->|[_ []]]. by left.
Qed.

Lemma map_authors_all (rows : list (post_row * option user_row)) :
  Forall (fun r => is_Some r.2) rows ->
  exists vs, Supabase.map_authors rows = Some vs /\ map pv_post vs = map fst rows.
Proof.
  induction 1 as [|[p o] rows [u Hu] _ (vs & Hvs & Hmap)]; [by exists []|].
  simpl in Hu. subst o. simpl. rewrite Hvs. eexists. split; [done|].
  simpl. by rewrite Hmap.
Qed.

Lemma sqlite_listing f viewer d :
  authors_exist d ->
  map pv_post (Sqlite.select_posts f viewer d) ≡ₚ Spec.visible_posts f viewer d
  /\ Sorted (newest_first pv_post) (Sqlite.select_posts f viewer d).
Proof.
  intros Hauth. unfold Sqlite.select_posts, order_by_published_at_desc.
  split; [|apply Sorted_merge_sort, _].
  rewrite merge_sort_Permutation.
  rewrite (list_filter_iff _ (fun p => p_fanclub_id p = f /\ Spec.canView viewer p d))
    by apply where_clause_spec.
  rewrite with_author_all; [done|].
  apply Forall_forall. intros p [_ Hin]%list_elem_of_filter.
  by eapply Forall_forall in Hauth.
Qed.

Lemma supabase_listing req d :
  authors_exist d -> unique_memberships d ->
  exists vs,
    Supabase.get_posts no_faults req d = R200_posts vs
    /\ map pv_post vs
       ≡ₚ Spec.visible_posts (req_params_id req) (req_query_user_id req) d
    /\ Sorted (newest_first pv_post) vs.
Proof.
  intros Hauth Hnd. unfold Supabase.get_posts. cbn [fail1 fail2 no_faults].
  set (visibilities := match req_query_user_id req with
                       | Some u => _
                       | None => _
                       end).
  set (rows := Supabase.select_posts _ _ _).
  assert (Hperm : map fst rows
    ≡ₚ Spec.visible_posts (req_params_id req) (req_query_user_id req) d).
  { unfold rows, visibilities, Supabase.select_posts, order_by_published_at_desc.
    rewrite merge_sort_Permutation, map_map. cbn [fst]. rewrite map_id.
    unfold Spec.visible_posts.
    by rewrite (list_filter_iff _ _ (posts d)
                  (fun p => supabase_visibilities_spec _ _ d p Hnd)). }
  assert (Hsorted : Sorted (newest_first fst) rows)
    by apply Sorted_merge_sort, _.
  assert (Hall : Forall (fun r => is_Some r.2) rows).
  { apply Forall_forall. intros r Hr.
    unfold rows, Supabase.select_posts, order_by_published_at_desc in Hr.
    rewrite merge_sort_Permutation in Hr.
    apply list_elem_of_fmap in Hr as (p & -> & [_ Hin]%list_elem_of_filter).
    simpl. by eapply Forall_forall in Hauth. }
  destruct (map_authors_all rows Hall) as (vs & Hvs & Hmap).
  rewrite Hvs. exists vs. split_and!; [done|rewrite Hmap; exact Hperm|].
  apply (proj2 (sorted_by_post pv_post vs)). rewrite Hmap.
  exact (proj1 (sorted_by_post fst rows) Hsorted).
Qed.

(** C1, amended: the viewer the listing decides for is the identity the
    request names as [user_id], not the identity of a verified token. On
    either server, with the author of every post among the users and at
    most one membership row per user and fanclub, the listing answers with
    exactly the posts of the fanclub that the visibility gate lets that
    named identity see, each as often as it is stored: every public post
    for any request, a members-only post if and only if [user_id] names an
    identity with a membership in the fanclub (a request without [user_id]
    gets the public posts only); and the answer is ordered by
    [published_at], newest first. *)
Theorem listing_is_gate_filtered req d :
  authors_exist d ->
  unique_memberships d ->
  exists on_sqlite on_supabase,
    Sqlite.get_posts no_faults req d = R200_posts on_sqlite
    /\ Supabase.get_posts no_faults req d = R200_posts on_supabase
    /\ Forall (fun listed =>
         map pv_post listed
           ≡ₚ Spec.visible_posts (req_params_id req) (req_query_user_id req) d
         /\ Sorted (newest_first pv_post) listed
         /\ forall p, p ∈ map pv_post listed
              <-> p ∈ posts d /\ p_fanclub_id p = req_params_id req
                  /\ Spec.canView (req_query_user_id req) p d)
       [on_sqlite; on_supabase].
Proof.
  intros Hauth Hnd.
  destruct (sqlite_listing (req_params_id req) (req_query_user_id req) d Hauth)
    as [Hp1 Hs1].
  destruct (supabase_listing req d Hauth Hnd) as (vs & Hrun & Hp2 & Hs2).
  exists (Sqlite.select_posts (req_params_id req) (req_query_user_id req) d), vs.
  split_and!; [done|done|].
  assert (Hin : forall listed p,
    map pv_post listed
      ≡ₚ Spec.visible_posts (req_params_id req) (req_query_user_id req) d ->
    p ∈ map pv_post listed
    <-> p ∈ posts d /\ p_fanclub_id p = req_params_id req
        /\ Spec.canView (req_query_user_id req) p d).
  { intros listed p ->. unfold Spec.visible_posts.
    rewrite list_elem_of_filter. tauto. }
  constructor; [|constructor; [|constructor]]; split_and!; auto.
Qed.

Lemma club_with_posts_authors : authors_exist club_with_posts.
Proof. repeat constructor; vm_compute; by eexists. Qed.

Lemma club_with_posts_unique : unique_memberships club_with_posts.
Proof.
  unfold unique_memberships. vm_compute.
  apply NoDup_cons. split; [|apply NoDup_singleton].
  intros [=]%list_elem_of_singleton.
Qed.

Lemma listing_is_gate_filtered_witness :
  exists on_sqlite on_supabase,
    Sqlite.get_posts no_faults bob_request club_with_posts = R200_posts on_sqlite
    /\ Supabase.get_posts no_faults bob_request club_with_posts
       = R200_posts on_supabase
    /\ Forall (fun listed =>
         map pv_post listed ≡ₚ Spec.visible_posts 1 (Some 2) club_with_posts
         /\ Sorted (newest_first pv_post) listed
         /\ forall p, p ∈ map pv_post listed
              <-> p ∈ posts club_with_posts /\ p_fanclub_id p = 1
                  /\ Spec.canView (Some 2) p club_with_posts)
       [on_sqlite; on_supabase].
Proof.
  exact (listing_is_gate_filtered bob_request club_with_posts
           club_with_posts_authors club_with_posts_unique).
Defined.

(** The visibility scenario of the specification: one public and one
    members-only post; the anonymous viewer and the non-member get the
    public one, the member gets both, newest first. *)
Example listing_scenario :
  listed_ids (Sqlite.get_posts no_faults anonymous_request club_with_posts) = [1]
  /\ listed_ids (Sqlite.get_posts no_faults bob_request club_with_posts) = [2; 1]
  /\ listed_ids (Sqlite.get_posts no_faults (PostsRequest (Some 3) 1 (Some 3))
                   club_with_posts) = [1]
  /\ listed_ids (Supabase.get_posts no_faults anonymous_request club_with_posts) = [1]
  /\ listed_ids (Supabase.get_posts no_faults bob_request club_with_posts) = [2; 1]
  /\ listed_ids (Supabase.get_posts no_faults (PostsRequest (Some 3) 1 (Some 3))
                   club_with_posts) = [1].
Proof. vm_compute. split_and!; reflexivity. Qed.

(** C1, as the specification states it, fails: with the viewer being who
    sends the request, an anonymous request (no token) that names the
    owner's identifier as [user_id] is given the members-only post, which
    the gate denies the anonymous viewer; and bob, a member, sending his
    token and no [user_id], is not given the members-only post the gate
    allows him. *)
Lemma listing_is_not_decided_by_the_viewer :
  req_user borrowed_id_request = None
  /\ map p_id (Spec.visible_posts 1 None club_with_posts) = [1]
  /\ listed_ids (Sqlite.get_posts no_faults borrowed_id_request club_with_posts)
     = [2; 1]
  /\ listed_ids (Supabase.get_posts no_faults borrowed_id_request club_with_posts)
     = [2; 1]
  /\ req_user bob_token_only_request = Some 2
  /\ map p_id (Spec.visible_posts 1 (Some 2) club_with_posts) = [1; 2]
  /\ listed_ids (Sqlite.get_posts no_faults bob_token_only_request club_with_posts)
     = [1]
  /\ listed_ids
       (Supabase.get_posts no_faults bob_token_only_request club_with_posts)
     = [1].
Proof. vm_compute. split_and!; reflexivity. Qed.

(** C2, as the specification states it, fails: two requests without a
    token, hence with the same verified identity (none), get different
    posts: the one that names the owner's identifier as [user_id] is given
    the members-only post; and carol, who is no member, gets it with her
    own token by naming bob. *)
Lemma listing_follows_client_user_id :
  req_user anonymous_request = req_user borrowed_id_request
  /\ req_params_id anonymous_request = req_params_id borrowed_id_request
  /\ listed_ids (Sqlite.get_posts no_faults anonymous_request club_with_posts)
     = [1]
  /\ listed_ids (Sqlite.get_posts no_faults borrowed_id_request club_with_posts)
     = [2; 1]
  /\ listed_ids (Supabase.get_posts no_faults anonymous_request club_with_posts)
     = [1]
  /\ listed_ids (Supabase.get_posts no_faults borrowed_id_request club_with_posts)
     = [2; 1]
  /\ listed_ids (Sqlite.get_posts no_faults carol_as_bob_request club_with_posts)
     = [2; 1]
  /\ Sqlite.get_posts no_faults anonymous_request club_with_posts
     <> Sqlite.get_posts no_faults borrowed_id_request club_with_posts.
Proof. vm_compute. split_and!; try reflexivity. discriminate. Qed.

Lemma listed_post_passes_where f viewer d p :
  p ∈ map pv_post (Sqlite.select_posts f viewer d) ->
  Sqlite.where_clause f viewer d p = true.
Proof.
  unfold Sqlite.select_posts, order_by_published_at_desc.
  rewrite merge_sort_Permutation.
  intros (v & -> & Hv)%list_elem_of_fmap.
  apply list_elem_of_omap in Hv as (p & Hp & Hauthor).
  apply list_elem_of_filter in Hp as [Hp _]. unfold with_author in Hauthor.
  destruct (users d !! p_author_id p); [|done]. by injection Hauthor as <-.
Qed.

Lemma map_authors_posts rows vs :
  Supabase.map_authors rows = Some vs -> map pv_post vs = map fst rows.
Proof.
  revert vs. induction rows as [|[p [u|]] rows IH]; intros vs; simpl.
  - by intros [= <-].
  - destruct (Supabase.map_authors rows) as [vs'|]; [|done].
    intros [= <-]. simpl. by rewrite (IH vs').
  - done.
Qed.

Lemma supabase_listed_members_post flt f viewer d listed p :
  Supabase.get_posts flt (PostsRequest None f viewer) d = R200_posts listed ->
  p ∈ map pv_post listed -> p_visibility p = "members" ->
  exists u, viewer = Some u /\ Spec.isMember u f d.
Proof.
  unfold Supabase.get_posts. cbn [req_params_id req_query_user_id].
  destruct (fail2 flt); [done|].
  destruct (Supabase.map_authors _) as [vs|] eqn:Hvs; [|done].
  intros [= <-] Hin Hmembers.
  rewrite (map_authors_posts _ _ Hvs) in Hin.
  unfold Supabase.select_posts, order_by_published_at_desc in Hin.
  rewrite merge_sort_Permutation, map_map in Hin. cbn [fst] in Hin.
  rewrite map_id in Hin.
  apply list_elem_of_filter in Hin as [[_ Hvis] _]. rewrite Hmembers in Hvis.
  destruct viewer as [u|];
    [|apply list_elem_of_singleton in Hvis; discriminate].
  destruct (Supabase.select_membership_single (fail1 flt) u f d) as [m|] eqn:Hm;
    [|apply list_elem_of_singleton in Hvis; discriminate].
  exists u. split; [done|].
  unfold Supabase.select_membership_single in Hm.
  destruct (fail1 flt); [done|].
  apply single_Some_elem, list_elem_of_filter in Hm as [Hpair Hin].
  apply isMember_existsb, existsb_exists. exists m.
  by rewrite <- list_elem_of_In.
Qed.

(** C2, amended: the posts returned depend on the fanclub, the database
    and the [user_id] query parameter only; neither handler reads the
    verified identity. On either server two requests for the same fanclub
    with the same [user_id] parameter (or both without) get the same
    answer whatever their tokens, and a members-only post is returned only
    when the [user_id] parameter names a member of the fanclub. *)
Theorem listing_depends_on_query_user_id flt r1 r2 d :
  req_params_id r1 = req_params_id r2 ->
  req_query_user_id r1 = req_query_user_id r2 ->
  Sqlite.get_posts flt r1 d = Sqlite.get_posts flt r2 d
  /\ Supabase.get_posts flt r1 d = Supabase.get_posts flt r2 d
  /\ (forall listed p,
       Sqlite.get_posts flt r1 d = R200_posts listed ->
       p ∈ map pv_post listed -> p_visibility p = "members" ->
       exists u, req_query_user_id r1 = Some u
                 /\ Spec.isMember u (req_params_id r1) d)
  /\ (forall listed p,
       Supabase.get_posts flt r1 d = R200_posts listed ->
       p ∈ map pv_post listed -> p_visibility p = "members" ->
       exists u, req_query_user_id r1 = Some u
                 /\ Spec.isMember u (req_params_id r1) d).
Proof.
  intros Hid Hq. split_and!.
  - unfold Sqlite.get_posts. by rewrite <- Hid, <- Hq.
  - unfold Supabase.get_posts. by rewrite <- Hid, <- Hq.
  - unfold Sqlite.get_posts. intros listed p Hrun Hin Hmembers.
    destruct (fail1 flt); [done|]. injection Hrun as <-.
    apply listed_post_passes_where, where_clause_spec in Hin as [Hf Hview].
    destruct Hview as [Hpub|[_ Hmem]]; [congruence|].
    destruct (req_query_user_id r1) as [u|]; [|done].
    exists u. by rewrite <- Hf.
  - intros listed p Hrun. eapply supabase_listed_members_post.
    unfold Supabase.get_posts in *. exact Hrun.
Qed.

Lemma listing_depends_on_query_user_id_witness :
  Sqlite.get_posts no_faults carol_as_bob_request club_with_posts
  = Sqlite.get_posts no_faults bob_request club_with_posts.
Proof.
  exact (proj1 (listing_depends_on_query_user_id no_faults
                  carol_as_bob_request bob_request club_with_posts
                  eq_refl eq_refl)).
Defined.

(** * Further properties of the handlers *)

(** ** Join and leave *)

Lemma delete_after_insert u f due (ms : list membership_row) :
  existsb (same_pair u f) ms = false ->
  filter (fun m => leaving u f m = false) (ms ++ [MembershipRow u f false due])
  = ms
  /\ length (filter (fun m => leaving u f m = true)
               (ms ++ [MembershipRow u f false due])) = 1%nat.
Proof.
  intros Hnew.
  assert (Hnone : existsb (leaving u f) ms = false).
  { apply not_true_iff_false. intros (m & Hin & Hl)%existsb_exists.
    apply andb_true_iff in Hl as [Hpair _].
    apply not_true_iff_false in Hnew. apply Hnew, existsb_exists. eauto. }
  assert (Hrow : leaving u f (MembershipRow u f false due) = true).
  { unfold leaving, same_pair. simpl. by rewrite !bool_decide_eq_true_2. }
  apply filter_some_removed in Hnone. rewrite !filter_app, length_app, Hnone.
  rewrite (filter_none_removed _ ms Hnone).
  rewrite filter_cons_False, filter_cons_True by (rewrite Hrow; done).
  by rewrite app_nil_r.
Qed.

Lemma alter_back (m : gmap Z fanclub_row) f (g h : Z -> Z) :
  (forall n, h (g n) = n) ->
  alter (fun r => set_member_count (h (f_member_count r)) r) f
    (alter (fun r => set_member_count (g (f_member_count r)) r) f m) = m.
Proof.
  intros Hback. rewrite alter_alter_eq. apply alter_id.
  intros [] _. unfold set_member_count. simpl. by rewrite Hback.
Qed.

(** X1: on the SQLite server a leave right after a successful join
    succeeds and gives back exactly the database the join started from:
    rows, counters and identifiers. *)
Theorem join_then_leave_restores u f now d d' :
  Sqlite.post_join no_faults u f now d = (R200_joined, d') ->
  Sqlite.delete_leave no_faults u f d' = (R200_left, d).
Proof.
  intros Hjoin. pose proof (sqlite_join_joined _ _ _ _ _ _ Hjoin) as [Hnew _].
  unfold Sqlite.post_join in Hjoin.
  rewrite join_check_absent in Hjoin by by apply find_existsb.
  rewrite join_insert_absent in Hjoin by by apply find_existsb.
  injection Hjoin as <-.
  destruct (delete_after_insert u f (Some (nextPaymentDate now))
              (memberships d) Hnew) as [Hrest Hone].
  unfold Sqlite.delete_leave, delete_membership.
  cbn [fail1 fail2 no_faults memberships update_member_count set_fanclubs
       set_memberships].
  rewrite Hone, Hrest. rewrite bool_decide_eq_false_2 by done. f_equal.
  unfold update_member_count, set_fanclubs, set_memberships.
  cbn [users fanclubs fanclubs_seq memberships posts posts_seq].
  rewrite (alter_back (fanclubs d) f (fun n => n + 1) (fun n => n - 1))
    by (intros; lia).
  by destruct d.
Qed.

Lemma join_then_leave_restores_witness :
  Sqlite.delete_leave no_faults 2 1 club_with_bob = (R200_left, club_db).
Proof.
  apply (join_then_leave_restores 2 1 jan15 club_db club_with_bob).
  vm_compute. reflexivity.
Defined.

(** X2: on the Supabase server a join to a fanclub that does not exist, or
    by a user who does not exist, can not succeed, whatever statement
    fails or not: it is answered "already a member" or with the insert
    error, and nothing is stored. *)
Theorem supabase_join_needs_fanclub_and_user flt u f now d :
  fanclubs d !! f = None \/ users d !! u = None ->
  (Supabase.post_join flt u f now d = (R400_already_member, d)
   \/ Supabase.post_join flt u f now d = (R500_membership_create_error, d)).
Proof.
  intros Hmissing. unfold Supabase.post_join, Supabase.insert_membership.
  destruct (Supabase.select_membership_single _ u f d); [by left|right].
  destruct (fail2 flt); [done|]. simpl.
  destruct (existsb _ _); [done|].
  destruct Hmissing as [-> | ->]; [by destruct (users d !! u)|done].
Qed.

Lemma supabase_join_needs_fanclub_and_user_witness :
  Supabase.post_join no_faults 2 7 jan15 supabase_club_db
  = (R500_membership_create_error, supabase_club_db).
Proof.
  destruct (supabase_join_needs_fanclub_and_user no_faults 2 7 jan15
              supabase_club_db) as [H|H].
  - left. vm_compute. reflexivity.
  - vm_compute in H. discriminate.
  - exact H.
Defined.

(** ** What every request keeps *)

Ltac break_handler :=
  repeat (match goal with
    | |- context [if ?b then _ else _] => destruct b eqn:?
    | |- context [match ?o with Some _ => _ | None => _ end] => destruct o eqn:?
    | H : context [if ?b then _ else _] |- _ => destruct b eqn:?
    | H : context [match ?o with Some _ => _ | None => _ end] |- _ =>
        destruct o eqn:?
    end; simplify_eq).

Ltac unfold_handlers :=
  unfold sqlite_serve, supabase_serve,
    Sqlite.post_fanclubs, Sqlite.post_join, Sqlite.join_check,
    Sqlite.join_insert, Sqlite.delete_leave, Sqlite.post_posts,
    Sqlite.insert_fanclub, Sqlite.insert_membership, Sqlite.insert_post,
    Supabase.post_fanclubs, Supabase.post_join, Supabase.delete_leave,
    Supabase.post_posts, Supabase.insert_fanclub, Supabase.insert_membership,
    Supabase.insert_post, Supabase.increment_member_count,
    Supabase.decrement_member_count, delete_membership.

Ltac table_fields :=
  cbn [fst snd users fanclubs fanclubs_seq memberships posts posts_seq
       update_member_count set_fanclubs set_memberships set_posts
       m_user_id m_fanclub_id m_is_owner p_id p_visibility p_author_id
       p_fanclub_id] in *.

Lemma check_visibility_spec v vis :
  check_visibility v = Some vis -> vis = "public" \/ vis = "members".
Proof.
  destruct v; try done. simpl.
  destruct (bool_decide (s = "public")) eqn:Hp;
    destruct (bool_decide (s = "members")) eqn:Hm; simpl; intros [= <-];
    try (apply bool_decide_eq_true in Hp; by left);
    apply bool_decide_eq_true in Hm; by right.
Qed.

Lemma sqlite_serve_users r d : users (sqlite_serve r d).2 = users d.
Proof. destruct r; unfold_handlers; break_handler; by table_fields. Qed.

Lemma supabase_serve_users r d : users (supabase_serve r d).2 = users d.
Proof. destruct r; unfold_handlers; break_handler; by table_fields. Qed.

Lemma sqlite_serve_unique r d :
  unique_memberships d -> unique_memberships (sqlite_serve r d).2.
Proof.
  unfold unique_memberships. intros Hnd.
  destruct r; unfold_handlers; break_handler; table_fields; try done;
    first [ by apply unique_after_insert | by apply unique_after_delete ].
Qed.

Lemma supabase_serve_unique r d :
  unique_memberships d -> unique_memberships (supabase_serve r d).2.
Proof.
  unfold unique_memberships. intros Hnd.
  destruct r; unfold_handlers; break_handler; table_fields; try done;
    first [ by apply unique_after_insert | by apply unique_after_delete ].
Qed.

Lemma sqlite_serve_visibilities r d :
  visibilities_checked d -> visibilities_checked (sqlite_serve r d).2.
Proof.
  unfold visibilities_checked. intros Hvis.
  destruct r; unfold_handlers; break_handler; table_fields; try done.
  apply Forall_app. split; [done|]. constructor; [|done].
  by eapply check_visibility_spec.
Qed.

Lemma supabase_serve_visibilities r d :
  visibilities_checked d -> visibilities_checked (supabase_serve r d).2.
Proof.
  unfold visibilities_checked. intros Hvis.
  destruct r; unfold_handlers; break_handler; table_fields; try done.
  apply Forall_app. split; [done|]. constructor; [|done].
  by eapply check_visibility_spec.
Qed.

Lemma sqlite_serve_post_ids r d :
  post_ids_issued d -> post_ids_issued (sqlite_serve r d).2.
Proof.
  unfold post_ids_issued. intros [Hle Hnd].
  destruct r; unfold_handlers; break_handler; table_fields; try done.
  split.
  - apply Forall_app. split.
    + eapply Forall_impl; [exact Hle|]. simpl. intros; lia.
    + constructor; [simpl; lia|done].
  - rewrite map_app. simpl. apply NoDup_app. split_and!; [done| |apply NoDup_singleton].
    intros k Hk ->%list_elem_of_singleton.
    apply list_elem_of_fmap in Hk as (p & Hid & Hp).
    eapply Forall_forall in Hle; [|exact Hp]. simpl in Hle. lia.
Qed.

Lemma sqlite_serve_fanclub_ids r d :
  fanclub_ids_issued d -> fanclub_ids_issued (sqlite_serve r d).2.
Proof.
  unfold fanclub_ids_issued. intros Hle.
  destruct r; unfold_handlers; break_handler; table_fields; try done;
    intros k; rewrite ?lookup_alter_is_Some; auto;
    (destruct (decide (k = fanclubs_seq d + 1)) as [->|Hne]; [lia|]);
    rewrite lookup_insert_ne by done; intros Hk%Hle; lia.
Qed.

Lemma sqlite_serve_authors r d :
  is_Some (users d !! requester r) ->
  authors_exist d -> authors_exist (sqlite_serve r d).2.
Proof.
  unfold authors_exist. intros Hreq Hall.
  destruct r; unfold_handlers; break_handler; table_fields; try done.
  apply Forall_app. split; [done|]. by constructor.
Qed.

Lemma Forall_filter_keep {A : Type} (P Q : A -> Prop)
    `{!forall x, Decision (Q x)} (l : list A) :
  Forall P l -> Forall P (filter Q l).
Proof.
  rewrite !Forall_forall. intros Hall x [_ Hx]%list_elem_of_filter. auto.
Qed.

Lemma supabase_serve_references r d :
  references_hold d -> references_hold (supabase_serve r d).2.
Proof.
  unfold references_hold. intros [Hms Hps].
  assert (Hins_m : forall k row,
    Forall (fun m => is_Some (users d !! m_user_id m)
                     /\ is_Some (<[k := row]> (fanclubs d) !! m_fanclub_id m))
      (memberships d)).
  { intros k row. eapply Forall_impl; [eassumption|]. simpl.
    intros ? [? ?]. split; [done|]. rewrite lookup_insert_is_Some'. by right. }
  assert (Hins_p : forall k row,
    Forall (fun p => is_Some (users d !! p_author_id p)
                     /\ is_Some (<[k := row]> (fanclubs d) !! p_fanclub_id p))
      (posts d)).
  { intros k row. eapply Forall_impl; [eassumption|]. simpl.
    intros ? [? ?]. split; [done|]. rewrite lookup_insert_is_Some'. by right. }
  assert (Halt_m : forall k g,
    Forall (fun m => is_Some (users d !! m_user_id m)
                     /\ is_Some (alter g k (fanclubs d) !! m_fanclub_id m))
      (memberships d)).
  { intros k g. eapply Forall_impl; [eassumption|]. simpl.
    intros ? [? ?]. split; [done|]. by rewrite lookup_alter_is_Some. }
  assert (Halt_p : forall k g,
    Forall (fun p => is_Some (users d !! p_author_id p)
                     /\ is_Some (alter g k (fanclubs d) !! p_fanclub_id p))
      (posts d)).
  { intros k g. eapply Forall_impl; [eassumption|]. simpl.
    intros ? [? ?]. split; [done|]. by rewrite lookup_alter_is_Some. }
  destruct r; unfold_handlers; break_handler; table_fields; try done;
    split;
    repeat first [ apply Forall_app; split | apply Forall_filter_keep ];
    first [ done | apply Hins_m | apply Hins_p | apply Halt_m | apply Halt_p
          | constructor; [|done]; simpl; split;
            rewrite ?lookup_insert_eq, ?lookup_alter_is_Some; by eexists ].
Qed.

Lemma supabase_serve_counters r d :
  counters_nonnegative d -> counters_nonnegative (supabase_serve r d).2.
Proof.
  unfold counters_nonnegative. intros Hnn.
  destruct r; unfold_handlers; break_handler; table_fields; try done;
    intros k row;
    first
      [ rewrite lookup_insert; case_decide;
        [intros [= <-]; simpl; lia | apply Hnn]
      | rewrite lookup_alter; case_decide; [|apply Hnn];
        destruct (fanclubs d !! _) as [row0|] eqn:Hrow0; [|done];
        intros [= <-]; simpl; apply Hnn in Hrow0; lia ].
Qed.

(** X3: on the Supabase server no request, whichever of its statements
    fail, takes a counter below 0: counters that are all at least 0 stay so
    through every sequence of create, join, leave and publish requests. *)
Theorem supabase_counters_stay_nonnegative rs d :
  counters_nonnegative d -> counters_nonnegative (supabase_serve_all rs d).
Proof.
  revert d. induction rs as [|r rs IH]; intros d Hnn; [done|].
  simpl. by apply IH, supabase_serve_counters.
Qed.

Lemma supabase_counters_stay_nonnegative_witness :
  counters_nonnegative
    (supabase_serve_all
       [SLeaveFanclub no_faults 1 1; SLeaveFanclub no_faults 2 1;
        SJoinFanclub (Faults false false true) 2 1 jan15;
        SLeaveFanclub no_faults 2 1; SLeaveFanclub no_faults 3 1]
       supabase_club_db).
Proof.
  apply supabase_counters_stay_nonnegative.
  intros k row.
  assert (fanclubs supabase_club_db
          = <[1 := FanclubRow (JStr "club") (JStr "about") (JNum 500)
                     (JStr "fans") JUndefined 1 1]> ∅) as ->
    by (vm_compute; reflexivity).
  rewrite lookup_insert. case_decide; [|by rewrite lookup_empty].
  intros [= <-]. simpl. lia.
Defined.

(** X4: the schema constraints the listing relies on are kept by every
    request to the SQLite server, whichever statements fail: at most one
    membership row per user and fanclub, visibilities among "public" and
    "members", fanclub and post identifiers not beyond the last one handed
    out, post identifiers without repetition and, when the requesters are
    registered users, an author row for every post. *)
Theorem sqlite_keeps_constraints rs d :
  Forall (fun r => is_Some (users d !! requester r)) rs ->
  unique_memberships d /\ visibilities_checked d /\ fanclub_ids_issued d
  /\ post_ids_issued d /\ authors_exist d ->
  let d' := sqlite_serve_all rs d in
  unique_memberships d' /\ visibilities_checked d' /\ fanclub_ids_issued d'
  /\ post_ids_issued d' /\ authors_exist d'.
Proof.
  revert d. induction rs as [|r rs IH]; intros d Hreq Hinv; [done|].
  apply Forall_cons in Hreq as [Hr Hrs].
  destruct Hinv as (H1 & H2 & H3 & H4 & H5). simpl. apply IH.
  - rewrite sqlite_serve_users. exact Hrs.
  - split_and!;
      auto using sqlite_serve_unique, sqlite_serve_visibilities,
        sqlite_serve_fanclub_ids, sqlite_serve_post_ids, sqlite_serve_authors.
Qed.

Lemma sqlite_keeps_constraints_witness :
  unique_memberships
    (sqlite_serve_all
       [CreateFanclub no_faults 1 club_body; JoinFanclub no_faults 2 1 jan15;
        CreatePost no_faults 1 1 plain_post 1000; LeaveFanclub no_faults 2 1]
       three_users).
Proof.
  refine (proj1 (sqlite_keeps_constraints
                   [CreateFanclub no_faults 1 club_body;
                    JoinFanclub no_faults 2 1 jan15;
                    CreatePost no_faults 1 1 plain_post 1000;
                    LeaveFanclub no_faults 2 1] three_users _ _)).
  - repeat constructor; vm_compute; by eexists.
  - split_and!.
    + apply NoDup_nil_2.
    + constructor.
    + intros k [row Hrow]. vm_compute in Hrow. discriminate.
    + split; [constructor|apply NoDup_nil_2].
    + constructor.
Defined.

(** X5: on the Supabase server every request, whichever statements fail,
    keeps the constraints Postgres enforces: UNIQUE(user_id, fanclub_id),
    the visibility check, and the foreign keys of memberships and posts; so
    the two assumptions of the listing, one row per pair and an author for
    every post, hold after every sequence of requests. *)
Theorem supabase_keeps_constraints rs d :
  unique_memberships d /\ visibilities_checked d /\ references_hold d ->
  let d' := supabase_serve_all rs d in
  unique_memberships d' /\ visibilities_checked d' /\ references_hold d'
  /\ authors_exist d'.
Proof.
  intros Hinv.
  assert (H : unique_memberships (supabase_serve_all rs d)
              /\ visibilities_checked (supabase_serve_all rs d)
              /\ references_hold (supabase_serve_all rs d)).
  { revert d Hinv. induction rs as [|r rs IH]; intros d (H1 & H2 & H3); [done|].
    simpl. apply IH.
    split_and!;
      auto using supabase_serve_unique, supabase_serve_visibilities,
        supabase_serve_references. }
  destruct H as (H1 & H2 & H3). split_and!; try done.
  destruct H3 as [_ Hps]. unfold authors_exist.
  eapply Forall_impl; [exact Hps|]. by intros p [? _].
Qed.

Lemma supabase_keeps_constraints_witness :
  authors_exist
    (supabase_serve_all
       [SCreateFanclub no_faults 1 1 club_body;
        SJoinFanclub no_faults 2 1 jan15;
        SCreatePost no_faults 10 1 1 plain_post 1000] three_users).
Proof.
  refine (proj2 (proj2 (proj2 (supabase_keeps_constraints
            [SCreateFanclub no_faults 1 1 club_body;
             SJoinFanclub no_faults 2 1 jan15;
             SCreatePost no_faults 10 1 1 plain_post 1000] three_users _)))).
  split_and!; [apply NoDup_nil_2|constructor|split; constructor].
Defined.

(** ** Ownership *)

Lemma owner_stays_after_delete u f u' f' (ms : list membership_row) :
  Exists (fun m => m_user_id m = u /\ m_fanclub_id m = f /\ m_is_owner m = true)
    (filter (fun m => leaving u' f' m = false) ms)
  <-> Exists (fun m => m_user_id m = u /\ m_fanclub_id m = f
                       /\ m_is_owner m = true) ms.
Proof.
  rewrite !Exists_exists. split.
  - intros (m & [_ Hin]%list_elem_of_filter & Hm). eauto.
  - intros (m & Hin & Hu & Hf & Hown). exists m. split; [|done].
    apply list_elem_of_filter. split; [|done].
    unfold leaving. rewrite Hown. apply andb_false_r.
Qed.

Lemma sqlite_serve_owner_kept r u f d :
  Spec.isOwner u f d -> Spec.isOwner u f (sqlite_serve r d).2.
Proof.
  unfold Spec.isOwner. intros Hown.
  destruct r; unfold_handlers; break_handler; table_fields; try done;
    first [ apply Exists_app; by left | by apply owner_stays_after_delete ].
Qed.

Lemma supabase_serve_owner_kept r u f d :
  Spec.isOwner u f d -> Spec.isOwner u f (supabase_serve r d).2.
Proof.
  unfold Spec.isOwner. intros Hown.
  destruct r; unfold_handlers; break_handler; table_fields; try done;
    first [ apply Exists_app; by left | by apply owner_stays_after_delete ].
Qed.

Lemma sqlite_serve_owner_not_granted r u f d :
  creates_no_fanclub r ->
  Spec.isOwner u f (sqlite_serve r d).2 -> Spec.isOwner u f d.
Proof.
  unfold Spec.isOwner. intros Hr.
  destruct r; [done|..]; unfold_handlers; break_handler; table_fields;
    try done;
    first [ by intros ?%owner_stays_after_delete
          | intros [?|Hnew]%Exists_app; [done|];
            apply Exists_cons in Hnew as [(_ & _ & [=])|[]%Exists_nil] ].
Qed.

(** X6: an owner's membership row is never removed: whoever owns a fanclub
    still owns it after every sequence of requests to either server,
    whichever of their statements fail, the owner's own leave included. *)
Theorem ownership_is_kept u f d rs srs :
  Spec.isOwner u f d ->
  Spec.isOwner u f (sqlite_serve_all rs d)
  /\ Spec.isOwner u f (supabase_serve_all srs d).
Proof.
  intros Hown. split.
  - revert d Hown. induction rs as [|r rs IH]; intros d Hown; [done|].
    simpl. by apply IH, sqlite_serve_owner_kept.
  - revert d Hown. induction srs as [|r srs IH]; intros d Hown; [done|].
    simpl. by apply IH, supabase_serve_owner_kept.
Qed.

Lemma ownership_is_kept_witness :
  Spec.isOwner 1 1
    (sqlite_serve_all [LeaveFanclub no_faults 1 1; JoinFanclub no_faults 1 1 jan15]
       club_db).
Proof.
  refine (proj1 (ownership_is_kept 1 1 club_db
                   [LeaveFanclub no_faults 1 1; JoinFanclub no_faults 1 1 jan15]
                   [] _)).
  unfold Spec.isOwner. vm_compute. by left.
Defined.

(** X7: on the SQLite server joining, leaving and publishing never make
    anyone an owner: who owns a fanclub after a sequence of such requests
    owned it before. *)
Theorem ownership_only_by_creation u f d rs :
  Forall creates_no_fanclub rs ->
  Spec.isOwner u f (sqlite_serve_all rs d) -> Spec.isOwner u f d.
Proof.
  intros Hrs. revert d. induction Hrs as [|r rs Hr Hrs IH]; intros d; [done|].
  simpl. intros Hown%IH. by eapply sqlite_serve_owner_not_granted.
Qed.

Lemma ownership_only_by_creation_witness :
  ~ Spec.isOwner 2 1
      (sqlite_serve_all
         [JoinFanclub no_faults 2 1 jan15;
          CreatePost no_faults 2 1 plain_post 1000] club_db).
Proof.
  intros Hown.
  apply (ownership_only_by_creation 2 1 club_db
           [JoinFanclub no_faults 2 1 jan15;
            CreatePost no_faults 2 1 plain_post 1000]) in Hown.
  - apply owner_lookup_spec in Hown. vm_compute in Hown. by destruct Hown.
  - repeat constructor.
Defined.

(** ** Publishing and listing *)

(** X8: a visibility other than "public" and "members" is not stored: on
    either server a publish request whose visibility is truthy and, as the
    sqlite3 driver binds it (an array or object as the text of its string
    conversion), fails the check constraint (for instance "private", a
    number, or a plain object) creates nothing, and the fanclub's owner,
    sending a title and a text, is answered with the post creation error
    (status 500). An array holding the one string "members" is bound as
    that word and is outside this statement. *)
Theorem unknown_visibility_is_rejected flt fresh user f b now d :
  truthy (b_visibility b) = true ->
  check_visibility (Sqlite.bind_value (b_visibility b)) = None ->
  (Sqlite.post_posts flt user f b now d).2 = d
  /\ succeeded (Sqlite.post_posts flt user f b now d).1 = false
  /\ (Supabase.post_posts flt fresh user f b now d).2 = d
  /\ succeeded (Supabase.post_posts flt fresh user f b now d).1 = false
  /\ (truthy (b_title b) = true -> truthy (b_content b) = true ->
      Spec.canPublish user f d -> unique_memberships d ->
      Sqlite.post_posts no_faults user f b now d = (R500_post_create_error, d)
      /\ Supabase.post_posts no_faults fresh user f b now d
         = (R500_post_create_error, d)).
Proof.
  intros Htruthy Hbound. pose proof (bound_text_refused _ Hbound) as Hcheck.
  assert (Hor : js_or (b_visibility b) (JStr "public") = b_visibility b)
    by (unfold js_or; by rewrite Htruthy).
  unfold Sqlite.post_posts, Supabase.post_posts, Sqlite.insert_post,
    Supabase.insert_post. rewrite Hor, Hbound, Hcheck. split_and!.
  - break_handler; done.
  - break_handler; done.
  - break_handler; done.
  - break_handler; done.
  - intros -> -> Hcan Hnd. cbn [negb orb fail1 fail2 no_faults].
    destruct (owner_single_some user f d Hnd Hcan) as [m ->].
    apply owner_lookup_spec in Hcan as [m' ->]. done.
Qed.

Lemma unknown_visibility_is_rejected_witness :
  Sqlite.post_posts no_faults 1 1
    (PostBody (JStr "hello") (JStr "text") JNull JNull (JStr "private"))
    1000 club_db
  = (R500_post_create_error, club_db).
Proof.
  refine (proj1 (proj2 (proj2 (proj2 (proj2
            (unknown_visibility_is_rejected no_faults 0 1 1
               (PostBody (JStr "hello") (JStr "text") JNull JNull (JStr "private"))
               1000 club_db eq_refl eq_refl)))) eq_refl eq_refl _ _)).
  - apply owner_lookup_spec. vm_compute. by eexists.
  - unfold unique_memberships. vm_compute. apply NoDup_singleton.
Defined.

Lemma member_after_join flt u f now d d' :
  Sqlite.post_join flt u f now d = (R200_joined, d') ->
  existsb (same_pair u f) (memberships d') = true /\ posts d' = posts d
  /\ users d' = users d.
Proof.
  intros Hjoin. pose proof (sqlite_join_joined _ _ _ _ _ _ Hjoin) as [_ Hrows].
  split_and!.
  - rewrite Hrows, existsb_snoc. unfold same_pair at 2. simpl.
    rewrite !bool_decide_eq_true_2 by done. apply orb_true_r.
  - revert Hjoin. unfold_handlers. break_handler; intros; simplify_eq;
      by table_fields.
  - revert Hjoin. unfold_handlers. break_handler; intros; simplify_eq;
      by table_fields.
Qed.

(** What a member is listed. *)
Lemma member_listing f u d :
  authors_exist d ->
  existsb (same_pair u f) (memberships d) = true ->
  map pv_post (Sqlite.select_posts f (Some u) d)
    ≡ₚ filter (fun p => p_fanclub_id p = f
                        /\ (p_visibility p = "public"
                            \/ p_visibility p = "members")) (posts d)
  /\ Sorted (newest_first pv_post) (Sqlite.select_posts f (Some u) d).
Proof.
  intros Hauth Hmem.
  destruct (sqlite_listing f (Some u) d Hauth) as [Hperm Hsorted].
  split; [|done]. rewrite Hperm. unfold Spec.visible_posts.
  assert (Heq : filter (fun p => p_fanclub_id p = f
                                 /\ Spec.canView (Some u) p d) (posts d)
                = filter (fun p => p_fanclub_id p = f
                                   /\ (p_visibility p = "public"
                                       \/ p_visibility p = "members"))
                    (posts d)).
  { apply list_filter_iff. intros p. unfold Spec.canView.
    split; intros [Hf Hvis]; (split; [done|]).
    - destruct Hvis as [?|[? _]]; auto.
    - destruct Hvis as [?|?]; [by left|]. right. split; [done|].
      rewrite Hf. by apply isMember_existsb. }
  by rewrite Heq.
Qed.

(** X9: joining opens the members-only posts: after a successful join on
    the SQLite server the listing for the new member's [user_id] is, newest
    first, every post of the fanclub that is public or members-only, as
    often as it is stored. *)
Theorem join_opens_members_posts flt u f now d d' :
  authors_exist d ->
  Sqlite.post_join flt u f now d = (R200_joined, d') ->
  map pv_post (Sqlite.select_posts f (Some u) d')
    ≡ₚ filter (fun p => p_fanclub_id p = f
                        /\ (p_visibility p = "public"
                            \/ p_visibility p = "members")) (posts d)
  /\ Sorted (newest_first pv_post) (Sqlite.select_posts f (Some u) d').
Proof.
  intros Hauth Hjoin.
  destruct (member_after_join _ _ _ _ _ _ Hjoin) as (Hmem & Hposts & Husers).
  assert (Hauth' : authors_exist d').
  { unfold authors_exist. by rewrite Hposts, Husers. }
  rewrite <- Hposts. by apply member_listing.
Qed.

Lemma join_opens_members_posts_witness :
  listed_ids
    (Sqlite.get_posts no_faults (PostsRequest None 1 (Some 3))
       (Sqlite.post_join no_faults 3 1 jan15 club_with_posts).2)
  = [2; 1]
  /\ map pv_post
       (Sqlite.select_posts 1 (Some 3)
          (Sqlite.post_join no_faults 3 1 jan15 club_with_posts).2)
     ≡ₚ filter (fun p => p_fanclub_id p = 1
                         /\ (p_visibility p = "public"
                             \/ p_visibility p = "members"))
          (posts club_with_posts).
Proof.
  split; [vm_compute; reflexivity|].
  refine (proj1 (join_opens_members_posts no_faults 3 1 jan15 club_with_posts
                   (Sqlite.post_join no_faults 3 1 jan15 club_with_posts).2
                   club_with_posts_authors _)).
  vm_compute. reflexivity.
Defined.

Lemma unique_pair_same u f (ms : list membership_row) m m' :
  NoDup (map (fun m => (m_user_id m, m_fanclub_id m)) ms) ->
  m ∈ ms -> m' ∈ ms ->
  same_pair u f m = true -> same_pair u f m' = true -> m = m'.
Proof.
  intros Hnd Hin Hin' Hm Hm'. pose proof (unique_pair_once u f ms Hnd) as Hle.
  assert (H1 : m ∈ filter (fun m => same_pair u f m = true) ms)
    by by apply list_elem_of_filter.
  assert (H2 : m' ∈ filter (fun m => same_pair u f m = true) ms)
    by by apply list_elem_of_filter.
  destruct (filter _ ms) as [|a [|c l]]; simpl in Hle;
    [by apply elem_of_nil in H1| |lia].
  apply list_elem_of_singleton in H1, H2. congruence.
Qed.

(** X10: leaving closes them again: after a successful leave on the SQLite
    server, with one membership row per pair, the listing for the former
    member's [user_id] is the listing an anonymous viewer gets. *)
Theorem leave_closes_members_posts flt u f d d' :
  unique_memberships d ->
  Sqlite.delete_leave flt u f d = (R200_left, d') ->
  Sqlite.select_posts f (Some u) d' = Sqlite.select_posts f None d'.
Proof.
  intros Hnd Hleave.
  assert (Hgone : existsb (same_pair u f) (memberships d') = false).
  { revert Hleave. unfold Sqlite.delete_leave, delete_membership.
    destruct (fail1 flt); [done|]. case_bool_decide as Hch; [done|].
    intros [= <-].
    assert (Hsome : existsb (leaving u f) (memberships d) = true).
    { apply not_false_iff_true. by intros ?%filter_some_removed. }
    apply existsb_exists in Hsome as (m & Hin%list_elem_of_In & Hl).
    apply andb_true_iff in Hl as [Hpair Hno%negb_true_iff].
    assert (Hrest : existsb (same_pair u f)
              (filter (fun m => leaving u f m = false) (memberships d)) = false).
    { apply not_true_iff_false.
      intros (m' & Hin' & Hpair')%existsb_exists.
      apply list_elem_of_In, list_elem_of_filter in Hin' as [Hstay Hin'].
      pose proof (unique_pair_same u f _ m m' Hnd Hin Hin' Hpair Hpair') as <-.
      unfold leaving in Hstay. by rewrite Hpair, Hno in Hstay. }
    by destruct (fail2 flt). }
  unfold Sqlite.select_posts. do 2 f_equal.
  apply list_filter_iff. intros p. unfold Sqlite.where_clause.
  rewrite Hgone, andb_false_r, orb_false_r. done.
Qed.

Lemma leave_closes_members_posts_witness :
  Sqlite.select_posts 1 (Some 2) (Sqlite.delete_leave no_faults 2 1 club_with_posts).2
  = Sqlite.select_posts 1 None (Sqlite.delete_leave no_faults 2 1 club_with_posts).2.
Proof.
  apply (leave_closes_members_posts no_faults 2 1 club_with_posts).
  - exact club_with_posts_unique.
  - vm_compute. reflexivity.
Defined.

(** ** The payment date, in days *)

Lemma following_normalised y m :
  0 <= m <= 11 ->
  following y m = (y + (m + 1) `div` 12, (m + 1) `mod` 12).
Proof.
  intros Hm. unfold following. destruct (Z.ltb_spec m 11).
  - rewrite Z.div_small, Z.mod_small by lia. f_equal. lia.
  - assert (m = 11) as -> by lia. reflexivity.
Qed.

Lemma following_month_range y m :
  0 <= m <= 11 -> 0 <= (following y m).2 <= 11.
Proof. intros Hm. unfold following. destruct (Z.ltb_spec m 11); simpl; lia. Qed.

(** X11: in the server's local calendar, the day of the next payment
    date both join handlers compute is a day of the calendar again, and
    lies exactly as many days after the day of the join as the month of
    the join has days (28 to 31). *)
Theorem next_payment_is_one_month_length_later now :
  valid now ->
  let due := nextPaymentDate now in
  (year due, month due, day due)
  = add_days (Z.to_nat (days_in_month (year now) (month now)))
      (year now, month now, day now)
  /\ 28 <= days_in_month (year now) (month now) <= 31
  /\ valid due.
Proof.
  intros Hvalid due. pose proof Hvalid as [Hm Hd].
  pose proof (days_in_month_bounds (year now) (month now)) as Hb.
  pose proof (following_normalised (year now) (month now) Hm) as Hfol.
  pose proof (following_month_range (year now) (month now) Hm) as Hrange.
  set (y := year now + (month now + 1) `div` 12) in *.
  set (m := (month now + 1) `mod` 12) in *.
  assert (Hfields : (year due, month due, day due)
                    = add_days (Z.to_nat (day now - 1)) (y, m, 1)).
  { unfold due, nextPaymentDate, setMonth, getMonth, MakeDay. fold y m.
    by destruct (add_days _ _) as [[? ?] ?]. }
  split; [|split; [exact Hb|]].
  - rewrite Hfields.
    replace (Z.to_nat (days_in_month (year now) (month now)))
      with (Z.to_nat (days_in_month (year now) (month now) - day now)
            + (1 + Z.to_nat (day now - 1)))%nat by lia.
    rewrite add_days_plus.
    rewrite (add_days_within _ (year now) (month now) (day now)) by lia.
    replace (day now + Z.of_nat (Z.to_nat (days_in_month (year now) (month now) - day now)))
      with (days_in_month (year now) (month now)) by lia.
    cbn [Nat.add add_days]. rewrite next_day_last, Hfol. done.
  - destruct (nextPaymentDate_cases now Hvalid) as [Hin Hout]. fold y m due in Hin, Hout.
    rewrite Hfol in Hrange. simpl in Hrange.
    pose proof (days_in_month_bounds y m) as Hb'.
    destruct (Z.le_gt_cases (day now) (days_in_month y m)) as [Hle|Hgt].
    + rewrite (Hin Hle). unfold valid. simpl. lia.
    + rewrite (Hout ltac:(lia)). unfold valid. simpl.
      pose proof (following_month_range y m Hrange).
      pose proof (days_in_month_bounds (following y m).1 (following y m).2).
      lia.
Qed.

Lemma next_payment_is_one_month_length_later_witness :
  nextPaymentDate jan31 = noon 2023 2 3
  /\ add_days 31 (2023, 0, 31) = (2023, 2, 3).
Proof.
  destruct (next_payment_is_one_month_length_later jan31) as (Hdays & _ & _).
  - unfold valid. vm_compute. split_and!; discriminate.
  - split; [vm_compute; reflexivity|].
    transitivity (add_days (Z.to_nat (days_in_month (year jan31) (month jan31)))
                    (year jan31, month jan31, day jan31)); [reflexivity|].
    rewrite <- Hdays. vm_compute. reflexivity.
Defined.

(** ** The two servers side by side *)

(** X12: with the UNIQUE constraint holding and the user and the fanclub
    present, a join on the Supabase server answers and stores exactly what
    the same join on the SQLite server does, as long as the lookup of the
    existing membership does not fail. *)
Theorem servers_agree_on_join flt u f now d :
  fail1 flt = false ->
  unique_memberships d ->
  is_Some (users d !! u) ->
  is_Some (fanclubs d !! f) ->
  Supabase.post_join flt u f now d = Sqlite.post_join flt u f now d.
Proof.
  intros Hf1 Hnd [urow Hu] [frow Hf].
  unfold Supabase.post_join, Sqlite.post_join, Sqlite.join_check,
    Sqlite.join_insert, Supabase.insert_membership, Sqlite.insert_membership,
    Supabase.increment_member_count.
  rewrite Hf1. cbn [m_user_id m_fanclub_id]. rewrite Hu, Hf.
  pose proof (membership_single_spec u f d Hnd) as Hsingle.
  rewrite <- isMember_existsb, <- find_is_Some_existsb in Hsingle.
  fold (select_membership u f d) in Hsingle.
  destruct (Supabase.select_membership_single false u f d) as [m|],
    (select_membership u f d) as [m'|]; try done.
  - destruct (proj1 Hsingle) as [? [=]]. by eexists.
  - destruct (proj2 Hsingle) as [? [=]]. by eexists.
Qed.

Lemma servers_agree_on_join_witness :
  Supabase.post_join no_faults 2 1 jan15 supabase_club_db
  = Sqlite.post_join no_faults 2 1 jan15 supabase_club_db.
Proof.
  apply servers_agree_on_join; [reflexivity| | |].
  - unfold unique_memberships. vm_compute. apply NoDup_singleton.
  - vm_compute. by eexists.
  - vm_compute. by eexists.
Defined.

(** ** The token in the Authorization header *)

Lemma split_nonempty sep s : split sep s <> [].
Proof.
  destruct s as [|c rest]; simpl; [done|].
  destruct (Ascii.eqb c sep); [done|]. by destruct (split sep rest).
Qed.

Lemma split_without sep s : occurs sep s = false -> split sep s = [s].
Proof.
  induction s as [|c rest IH]; simpl; [done|].
  destruct (Ascii.eqb c sep); [done|]. simpl. intros ->%IH. done.
Qed.

Lemma split_at_first sep w rest :
  occurs sep w = false ->
  split sep (w ++ String sep rest) = w :: split sep rest.
Proof.
  induction w as [|c w IH]; simpl.
  - by rewrite Ascii.eqb_refl.
  - destruct (Ascii.eqb c sep); [done|]. simpl. intros ->%IH. done.
Qed.

Lemma append_not_empty w c rest :
  String.eqb (w ++ String c rest) EmptyString = false.
Proof. by destruct w. Qed.

(** The second field of a header with at least one space. *)
Lemma second_field w rest :
  occurs space w = false ->
  split space (w ++ String space rest) !! 1%nat
  = head (split space rest).
Proof.
  intros Hw. rewrite split_at_first by done. simpl.
  by destruct (split space rest).
Qed.

Lemma bearer_parsed verify p t :
  token p = Some t -> t <> EmptyString -> occurs space t = false ->
  authenticateToken verify (apiCall_authorization p)
  = match verify t with
    | Some u => Next u
    | None => Status403
    end.
Proof.
  intros Htok Hne Hsp. apply String.eqb_neq in Hne.
  unfold apiCall_authorization, authenticateToken. rewrite Htok, Hne.
  change ("Bearer " ++ t)%string with ("Bearer" ++ String space t)%string.
  rewrite append_not_empty, second_field by reflexivity.
  rewrite split_without by done. simpl. by rewrite Hne.
Qed.

(** X13: the header the page script sends is read back by the middleware:
    for a stored token without a space, [apiCall] sends "Bearer " and the
    token, and [authenticateToken] hands exactly that token to the
    verifier, letting the request through as the user the verifier names
    and answering 403 when the verifier rejects it. *)
Theorem bearer_header_round_trip verify user fanclub t :
  t <> EmptyString ->
  occurs space t = false ->
  authenticateToken verify (apiCall_authorization (Page user fanclub (Some t)))
  = match verify t with
    | Some u => Next u
    | None => Status403
    end.
Proof. intros Hne Hsp. by apply bearer_parsed. Qed.

Lemma bearer_header_round_trip_witness :
  authenticateToken (accept_tok 2)
    (apiCall_authorization (Page None None (Some "tok"%string)))
  = Next 2.
Proof.
  refine (bearer_header_round_trip (accept_tok 2) None None "tok" _ eq_refl).
  discriminate.
Defined.

(** X14: a request without a usable second field in its Authorization
    header is answered 401 without the verifier being asked: no header, a
    header without a space, a header that ends after its first space, and
    a header with two spaces after the first word, whatever follows. *)
Theorem header_without_token_is_401 verify w rest :
  occurs space w = false ->
  authenticateToken verify None = Status401
  /\ authenticateToken verify (Some w) = Status401
  /\ authenticateToken verify (Some (w ++ " ")%string) = Status401
  /\ authenticateToken verify
       (Some (w ++ String space (String space rest))%string) = Status401.
Proof.
  intros Hw. unfold authenticateToken. split_and!.
  - done.
  - destruct (String.eqb w EmptyString) eqn:He; [by rewrite String.eqb_refl|].
    by rewrite split_without.
  - change (w ++ " ")%string with (w ++ String space EmptyString)%string.
    by rewrite append_not_empty, second_field.
  - by rewrite append_not_empty, second_field.
Qed.

Lemma header_without_token_is_401_witness :
  authenticateToken (accept_tok 2) (Some "Bearer  tok"%string) = Status401.
Proof.
  exact (proj2 (proj2 (proj2
           (header_without_token_is_401 (accept_tok 2) "Bearer" "tok" eq_refl)))).
Defined.

(** X15: the middleware looks at the second space-separated field only:
    the scheme word in front of the token is not compared with "Bearer"
    (it may be any word, or empty), and whatever follows a space after the
    token is ignored. *)
Theorem scheme_and_trailer_are_ignored verify w t rest :
  occurs space w = false ->
  occurs space t = false ->
  t <> EmptyString ->
  let outcome := match verify t with
                 | Some u => Next u
                 | None => Status403
                 end in
  authenticateToken verify (Some (w ++ String space t)%string) = outcome
  /\ authenticateToken verify
       (Some (w ++ String space (t ++ String space rest))%string) = outcome.
Proof.
  intros Hw Ht Hne outcome. apply String.eqb_neq in Hne.
  unfold authenticateToken.
  rewrite !append_not_empty, !second_field by done.
  rewrite split_without, split_at_first by done. simpl. by rewrite Hne.
Qed.

Lemma scheme_and_trailer_are_ignored_witness :
  authenticateToken (accept_tok 2) (Some "Basic tok and more"%string) = Next 2.
Proof.
  exact (proj2 (scheme_and_trailer_are_ignored (accept_tok 2)
                  "Basic" "tok" "and more" eq_refl eq_refl
                  ltac:(discriminate))).
Defined.

(** ** Reading a fanclub, and the page script *)

(** X16: a fanclub that was created can be read back: after a successful
    creation by a registered user on either server, GET /api/fanclubs/:id
    for the identifier the creation answered finds the fanclub, with that
    identifier, the creator as owner under the creator's nickname, and a
    member count of 1. *)
Theorem created_fanclub_reads_back flt fresh user b d id d' urow :
  users d !! user = Some urow ->
  Sqlite.post_fanclubs flt user b d = (R201_fanclub_created id, d')
  \/ Supabase.post_fanclubs flt fresh user b d = (R201_fanclub_created id, d') ->
  exists v,
    sqlite_get_fanclub no_faults id d' = F200_fanclub v
    /\ supabase_get_fanclub no_faults id d' = F200_fanclub v
    /\ fv_id v = id
    /\ f_owner_id (fv_row v) = user
    /\ f_member_count (fv_row v) = 1
    /\ fv_owner_name v = u_nickname urow.
Proof.
  intros Hu Hrun.
  set (row := FanclubRow (b_name b) (b_description b)
                (js_or (b_monthly_fee b) (JNum 0)) (b_purpose b)
                (b_cover_image_url b) user 1).
  assert (Hd' : fanclubs d' !! id = Some row /\ users d' = users d).
  { destruct Hrun as [Hrun|Hrun]; revert Hrun; unfold_handlers; break_handler;
      intros; simplify_eq; table_fields; by rewrite lookup_insert_eq. }
  destruct Hd' as [Hrow Husers].
  exists (FanclubView id row (u_nickname urow)).
  unfold sqlite_get_fanclub, supabase_get_fanclub. simpl fail1.
  rewrite Hrow, Husers. simpl. by rewrite Hu.
Qed.

Lemma created_fanclub_reads_back_witness :
  exists v,
    sqlite_get_fanclub no_faults 1 club_db = F200_fanclub v
    /\ f_owner_id (fv_row v) = 1
    /\ fv_owner_name v = "alice".
Proof.
  destruct (created_fanclub_reads_back no_faults 0 1 club_body three_users
              1 club_db alice) as (v & Hget & _ & _ & Howner & _ & Hname).
  - vm_compute. reflexivity.
  - left. vm_compute. reflexivity.
  - exists v. split_and!; [exact Hget | exact Howner | exact Hname].
Defined.

Lemma get_after_counter_update f g ms d v :
  sqlite_get_fanclub no_faults f d = F200_fanclub v ->
  sqlite_get_fanclub no_faults f (update_member_count f g (set_memberships d ms))
  = F200_fanclub (with_member_count v (g (f_member_count (fv_row v)))).
Proof.
  unfold sqlite_get_fanclub. simpl fail1. table_fields.
  rewrite lookup_alter_eq.
  destruct (fanclubs d !! f) as [row|]; [|done]. simpl.
  destruct (users d !! f_owner_id row); [|done]. by intros [= <-].
Qed.

Lemma viewFanclub_shown f user v t d :
  sqlite_get_fanclub no_faults f d = F200_fanclub v ->
  viewFanclub no_faults f (Page user (Some v) t) d = Page user (Some v) t.
Proof. unfold viewFanclub. by intros ->. Qed.

Lemma get_fanclub_id f d v :
  sqlite_get_fanclub no_faults f d = F200_fanclub v -> fv_id v = f.
Proof.
  unfold sqlite_get_fanclub. simpl.
  destruct (fanclubs d !! f) as [row|]; [|done].
  destruct (users d !! f_owner_id row); [|done]. by intros [= <-].
Qed.

(** X17: the counter the page keeps agrees with the server after a join:
    when the page shows a fanclub as the SQLite server last answered it
    and the logged-in user's token is accepted, [joinFanclub] leaves the
    page showing what GET /api/fanclubs/:id answers afterwards: the count
    one higher and a membership row stored when the user was no member,
    page and database untouched when the user already was. *)
Theorem page_join_agrees_with_server verify now me v t u d :
  t <> EmptyString ->
  occurs space t = false ->
  verify t = Some u ->
  sqlite_get_fanclub no_faults (fv_id v) d = F200_fanclub v ->
  let p := Page (Some me) (Some v) (Some t) in
  viewFanclub no_faults (fv_id v) (joinFanclub verify no_faults now p d).1
    (joinFanclub verify no_faults now p d).2
  = (joinFanclub verify no_faults now p d).1
  /\ match select_membership u (fv_id v) d with
     | None =>
         currentFanclub (joinFanclub verify no_faults now p d).1
         = Some (with_member_count v (f_member_count (fv_row v) + 1))
         /\ memberships (joinFanclub verify no_faults now p d).2
            = memberships d
              ++ [MembershipRow u (fv_id v) false (Some (nextPaymentDate now))]
     | Some _ => joinFanclub verify no_faults now p d = (p, d)
     end.
Proof.
  intros Hne Hsp Hverify Hget p.
  unfold joinFanclub, guarded. cbn [currentUser currentFanclub p].
  rewrite (bearer_parsed verify p t eq_refl Hne Hsp), Hverify.
  unfold Sqlite.post_join.
  destruct (select_membership u (fv_id v) d) as [m|] eqn:Hsel.
  - rewrite join_check_present
      by (apply find_is_Some_existsb; unfold select_membership in Hsel;
          rewrite Hsel; by eexists).
    simpl. split; [by apply viewFanclub_shown|done].
  - rewrite join_check_absent, join_insert_absent by done. simpl.
    split; [|done]. apply viewFanclub_shown.
    by rewrite (get_after_counter_update _ _ _ _ _ Hget).
Qed.

Lemma page_join_agrees_with_server_witness :
  currentFanclub
    (joinFanclub (accept_tok 2) no_faults jan15
       (Page (Some 2) (Some (shown_club 1)) (Some "tok"%string)) club_db).1
  = Some (with_member_count (shown_club 1) 2).
Proof.
  destruct (page_join_agrees_with_server (accept_tok 2) jan15 2 (shown_club 1)
              "tok" 2 club_db)
    as [_ Hcase]; [discriminate|reflexivity|reflexivity| |].
  - vm_compute. reflexivity.
  - exact (proj1 Hcase).
Defined.

(** X18: and after a leave: under the same conditions and with one
    membership row per pair, [leaveFanclub] leaves the page showing what
    the server answers afterwards: the count one lower when a membership
    that is not the owner's was deleted, page and database untouched when
    the leave was refused. *)
Theorem page_leave_agrees_with_server verify me v t u d :
  t <> EmptyString ->
  occurs space t = false ->
  verify t = Some u ->
  sqlite_get_fanclub no_faults (fv_id v) d = F200_fanclub v ->
  unique_memberships d ->
  let p := Page me (Some v) (Some t) in
  viewFanclub no_faults (fv_id v) (leaveFanclub verify no_faults p d).1
    (leaveFanclub verify no_faults p d).2
  = (leaveFanclub verify no_faults p d).1
  /\ (if existsb (leaving u (fv_id v)) (memberships d)
      then currentFanclub (leaveFanclub verify no_faults p d).1
           = Some (with_member_count v (f_member_count (fv_row v) - 1))
           /\ select_membership u (fv_id v) (leaveFanclub verify no_faults p d).2
              = None
      else leaveFanclub verify no_faults p d = (p, d)).
Proof.
  intros Hne Hsp Hverify Hget Hnd p.
  unfold leaveFanclub, guarded. cbn [currentFanclub p].
  rewrite (bearer_parsed verify p t eq_refl Hne Hsp), Hverify.
  unfold Sqlite.delete_leave, delete_membership. cbn [fail1 fail2 no_faults].
  destruct (existsb (leaving u (fv_id v)) (memberships d)) eqn:Hl.
  - assert (Hch : length (filter (fun m => leaving u (fv_id v) m = true)
                            (memberships d)) <> 0%nat).
    { intros H%filter_some_removed. congruence. }
    rewrite bool_decide_eq_false_2 by done. simpl. split.
    + apply viewFanclub_shown.
      by rewrite (get_after_counter_update _ _ _ _ _ Hget).
    + split; [done|].
      apply existsb_exists in Hl as (m & Hin%list_elem_of_In & Hm).
      apply andb_true_iff in Hm as [Hpair Hno%negb_true_iff].
      apply find_existsb, not_true_iff_false.
      intros (m' & Hin' & Hpair')%existsb_exists.
      apply list_elem_of_In, list_elem_of_filter in Hin' as [Hstay Hin'].
      pose proof (unique_pair_same _ _ _ m m' Hnd Hin Hin' Hpair Hpair') as <-.
      unfold leaving in Hstay. by rewrite Hpair, Hno in Hstay.
  - apply filter_some_removed in Hl. rewrite Hl. simpl.
    rewrite filter_none_removed, set_memberships_same by done.
    split; [by apply viewFanclub_shown|done].
Qed.

Lemma page_leave_agrees_with_server_witness :
  currentFanclub
    (leaveFanclub (accept_tok 2) no_faults
       (Page (Some 2) (Some (shown_club 2)) (Some "tok"%string)) club_with_bob).1
  = Some (with_member_count (shown_club 2) 1).
Proof.
  destruct (page_leave_agrees_with_server (accept_tok 2) (Some 2) (shown_club 2)
              "tok" 2 club_with_bob) as [_ Hcase];
    [discriminate|reflexivity|reflexivity| | |].
  - vm_compute. reflexivity.
  - unfold unique_memberships. vm_compute.
    apply NoDup_cons. split; [|apply NoDup_singleton].
    intros [=]%list_elem_of_singleton.
  - exact (proj1 Hcase).
Defined.

(** X21: from the click to the list: when the logged-in user of the page,
    holding an accepted token for that same user, joins the fanclub the
    page shows and was no member before, the request [loadFanclubPosts]
    then sends is answered by the SQLite server with every public and
    every members-only post of the fanclub, newest first. *)
Theorem page_lists_members_posts_after_join verify now me v t d :
  t <> EmptyString ->
  occurs space t = false ->
  verify t = Some me ->
  select_membership me (fv_id v) d = None ->
  authors_exist d ->
  let p := Page (Some me) (Some v) (Some t) in
  exists req listed,
    loadFanclubPosts_request (joinFanclub verify no_faults now p d).1 = Some req
    /\ Sqlite.get_posts no_faults req (joinFanclub verify no_faults now p d).2
       = R200_posts listed
    /\ map pv_post listed
       ≡ₚ filter (fun q => p_fanclub_id q = fv_id v
                           /\ (p_visibility q = "public"
                               \/ p_visibility q = "members")) (posts d)
    /\ Sorted (newest_first pv_post) listed.
Proof.
  intros Hne Hsp Hverify Hsel Hauth p.
  assert (Hjoin : joinFanclub verify no_faults now p d
    = (Page (Some me)
         (Some (with_member_count v (f_member_count (fv_row v) + 1))) (Some t),
       (Sqlite.post_join no_faults me (fv_id v) now d).2)).
  { unfold joinFanclub, guarded. cbn [currentUser currentFanclub p].
    rewrite (bearer_parsed verify p t eq_refl Hne Hsp), Hverify.
    unfold Sqlite.post_join.
    by rewrite join_check_absent, join_insert_absent. }
  rewrite Hjoin. cbn [fst snd].
  assert (Hrun : Sqlite.post_join no_faults me (fv_id v) now d
                 = (R200_joined, (Sqlite.post_join no_faults me (fv_id v) now d).2)).
  { unfold Sqlite.post_join.
    by rewrite join_check_absent, join_insert_absent. }
  destruct (member_after_join _ _ _ _ _ _ Hrun) as (Hmem & Hposts & Husers).
  eexists _, _. split_and!; [reflexivity|reflexivity| |].
  - rewrite <- Hposts. apply member_listing; [|done].
    unfold authors_exist. by rewrite Hposts, Husers.
  - apply member_listing; [|done].
    unfold authors_exist. by rewrite Hposts, Husers.
Qed.

Lemma page_lists_members_posts_after_join_witness :
  exists req listed,
    loadFanclubPosts_request
      (joinFanclub (accept_tok 3) no_faults jan15
         (Page (Some 3) (Some (shown_club 2)) (Some "tok"%string))
         club_with_posts).1
    = Some req
    /\ Sqlite.get_posts no_faults req
         (joinFanclub (accept_tok 3) no_faults jan15
            (Page (Some 3) (Some (shown_club 2)) (Some "tok"%string))
            club_with_posts).2
       = R200_posts listed
    /\ map pv_post listed
       ≡ₚ filter (fun q => p_fanclub_id q = 1
                           /\ (p_visibility q = "public"
                               \/ p_visibility q = "members"))
            (posts club_with_posts)
    /\ Sorted (newest_first pv_post) listed.
Proof.
  apply (page_lists_members_posts_after_join (accept_tok 3) jan15 3
           (shown_club 2) "tok" club_with_posts);
    [discriminate|reflexivity|reflexivity|vm_compute; reflexivity|].
  exact club_with_posts_authors.
Defined.

(** ** What a creation and a publication leave in place *)

(** X19: a creation on the SQLite server hands out an identifier no
    fanclub had, and leaves every fanclub that existed, every post and
    every user as they were: with no identifier in the table beyond the
    last one handed out, the new identifier was unused and every other
    identifier maps to the row it mapped to before. *)
Theorem creation_leaves_the_rest flt user b d id d' :
  fanclub_ids_issued d ->
  Sqlite.post_fanclubs flt user b d = (R201_fanclub_created id, d') ->
  fanclubs d !! id = None
  /\ (forall k, k <> id -> fanclubs d' !! k = fanclubs d !! k)
  /\ posts d' = posts d
  /\ users d' = users d
  /\ (forall m, m ∈ memberships d -> m ∈ memberships d').
Proof.
  intros Hissued. unfold_handlers. break_handler; intros; simplify_eq;
    table_fields;
    (split_and!;
     [ destruct (fanclubs d !! (fanclubs_seq d + 1)) eqn:Hk; [|done];
       assert (fanclubs_seq d + 1 <= fanclubs_seq d)
         by (apply Hissued; by eexists); lia
     | intros k Hk; by rewrite lookup_insert_ne
     | done | done
     | intros m Hm; rewrite ?elem_of_app; auto ]).
Qed.

Lemma creation_leaves_the_rest_witness :
  fanclubs club_db !! 2 = None
  /\ fanclubs (Sqlite.post_fanclubs no_faults 2 club_body club_db).2 !! 1
     = fanclubs club_db !! 1.
Proof.
  destruct (creation_leaves_the_rest no_faults 2 club_body club_db 2
              (Sqlite.post_fanclubs no_faults 2 club_body club_db).2)
    as (Hnew & Hrest & _).
  - intros k [row Hrow].
    assert (fanclubs club_db
            = <[1 := FanclubRow (JStr "club") (JStr "about") (JNum 500)
                       (JStr "fans") JUndefined 1 1]> ∅) as Heq
      by (vm_compute; reflexivity).
    rewrite Heq, lookup_insert in Hrow.
    case_decide; [|by rewrite lookup_empty in Hrow].
    subst k. vm_compute. discriminate.
  - vm_compute. reflexivity.
  - split; [exact Hnew|]. apply Hrest. discriminate.
Defined.

Lemma listed_iff f viewer d p :
  p ∈ map pv_post (Sqlite.select_posts f viewer d)
  <-> p ∈ posts d /\ Sqlite.where_clause f viewer d p = true
      /\ is_Some (users d !! p_author_id p).
Proof.
  unfold Sqlite.select_posts, order_by_published_at_desc.
  rewrite merge_sort_Permutation, list_elem_of_fmap. split.
  - intros (v & -> & (q & Hq & Hauthor)%list_elem_of_omap).
    apply list_elem_of_filter in Hq as [Hwhere Hin].
    unfold with_author in Hauthor.
    destruct (users d !! p_author_id q) eqn:Hu; [|done].
    injection Hauthor as <-. simpl. rewrite Hu. eauto.
  - intros (Hin & Hwhere & [u Hu]).
    exists (PostView p (u_nickname u) (u_avatar_url u)). split; [done|].
    apply list_elem_of_omap. exists p. split.
    + by apply list_elem_of_filter.
    + unfold with_author. by rewrite Hu.
Qed.

(** X20: a post that was published is listed: after a successful publish
    request of a registered user on the SQLite server, the stored post is
    the last row of the table and carries the identifier answered; when
    its visibility is "public" it is in the listing of the fanclub for
    every viewer, and when it is "members" it is in the listing exactly
    for the viewers whose [user_id] names a member of the fanclub. *)
Theorem published_post_is_listed flt user f b now d id d' :
  is_Some (users d !! user) ->
  Sqlite.post_posts flt user f b now d = (R201_post_created id, d') ->
  exists p,
    posts d' = posts d ++ [p] /\ p_id p = id /\ p_fanclub_id p = f
    /\ p_author_id p = user /\ p_published_at p = now
    /\ (p_visibility p = "public" \/ p_visibility p = "members")
    /\ forall viewer,
         p ∈ map pv_post (Sqlite.select_posts f viewer d')
         <-> (p_visibility p = "public"
              \/ exists u, viewer = Some u /\ Spec.isMember u f d).
Proof.
  intros Huser Hrun.
  assert (Hshape : exists vis,
    check_visibility (Sqlite.bind_value (js_or (b_visibility b) (JStr "public")))
    = Some vis
    /\ id = posts_seq d + 1
    /\ d' = set_posts d
              (posts d ++ [PostRow id f user (b_title b) (b_content b)
                             (b_excerpt b) (b_featured_image_url b) vis now]) id).
  { revert Hrun. unfold Sqlite.post_posts.
    destruct (negb _ || negb _); [done|]. destruct (fail1 flt); [done|].
    destruct (select_owner_membership user f d); [|done].
    destruct (fail2 flt); [done|].
    destruct (Sqlite.insert_post _ _ _ _ _ _) as [[id' d1]|] eqn:Hins; [|done].
    apply sqlite_insert_post_inv in Hins as (vis & Hvis & -> & ->).
    intros [= <- <-]. by exists vis. }
  destruct Hshape as (vis & Hvis & -> & ->).
  pose proof (check_visibility_spec _ _ Hvis) as Hcases.
  eexists. split_and!; try done. intros viewer.
  rewrite listed_iff. table_fields. rewrite where_clause_spec.
  unfold Spec.canView. table_fields. split.
  - intros (_ & [_ Hview] & _). destruct Hview as [?|[_ Hmem]]; [by left|].
    right. destruct viewer as [u|]; [|done]. by exists u.
  - intros Hview. split; [apply elem_of_app; right; by left|].
    split; [|done]. split; [done|].
    destruct Hview as [?|(u & -> & Hmem)]; [by left|].
    destruct Hcases as [?|?]; [by left|right; by split].
Qed.

Lemma published_post_is_listed_witness :
  exists p,
    posts (Sqlite.post_posts no_faults 1 1 plain_post 1000 club_db).2
    = posts club_db ++ [p]
    /\ p_id p = 1
    /\ p ∈ map pv_post
             (Sqlite.select_posts 1 None
                (Sqlite.post_posts no_faults 1 1 plain_post 1000 club_db).2).
Proof.
  destruct (published_post_is_listed no_faults 1 1 plain_post 1000 club_db 1
              (Sqlite.post_posts no_faults 1 1 plain_post 1000 club_db).2)
    as (p & Hposts & Hid & _ & _ & _ & _ & Hlisted).
  - vm_compute. by eexists.
  - vm_compute. reflexivity.
  - exists p. split_and!; [done|done|]. apply Hlisted. left.
    rewrite (surjective_pairing (Sqlite.post_posts _ _ _ _ _ _)) in Hposts.
    vm_compute in Hposts. by injection Hposts as <-.
Defined.
